(** * Cashflow report controller (server/controllers/finance/reports/cashflow)

    A shallow embedding of the cashflow controller of bhima: period
    resolution (calendar periods and weeks), grouping of ledger postings by
    period, classification into incomes and expenses, the running balance of
    the rendered document and the by-service matrix.

    Conventions of the embedding.
    - Money amounts ([debit_equiv], [credit_equiv], [value], balances) are
      integers (the amount in the smallest unit of the enterprise currency).
    - A JavaScript [Date] is its time value: milliseconds since the epoch.
      The server clock is taken to be UTC, so that local midnight and UTC
      midnight coincide and [getDate]/[getMonth]/[getYear] read the calendar
      fields of the day the instant falls in.
    - A ['YYYY-MM-DD'] string is the number of that day counted from
      1970-01-01; every such number is a valid calendar date.
    - A value that JavaScript would hold as [undefined] or [NaN] is [None].
    - An object used as a map is the map or set of its own properties. Where
      the code reads such an object at a key that can be the name of a
      property every object inherits (the cache of the filter that removes
      duplicates), the inherited names are written out. *)

From Stdlib Require Import ZArith Lia.
From stdpp Require Import base option list gmap strings.
From Equations Require Import Equations.

Local Open Scope Z_scope.

(** ** Dates: the part of [Date] and Moment the controller relies on *)

Module Moment.

(** A ['YYYY-MM-DD'] string, as days since 1970-01-01. *)
Definition Day := Z.

(** The time value of a [Date], in milliseconds since the epoch. *)
Definition Instant := Z.

Definition msPerDay : Z := 86400000.

(** A calendar date: [cmonth] is 1..12, [cday] is 1..31. *)
Record civil := Civil { cyear : Z; cmonth : Z; cday : Z }.

(** Days since 1970-01-01 of a proleptic Gregorian date. *)
Definition days_from_civil (c : civil) : Day :=
  let y := if cmonth c <=? 2 then cyear c - 1 else cyear c in
  let era := y / 400 in
  let yoe := y - era * 400 in
  let mp := (cmonth c + 9) mod 12 in
  let doy := (153 * mp + 2) / 5 + cday c - 1 in
  let doe := yoe * 365 + yoe / 4 - yoe / 100 + doy in
  era * 146097 + doe - 719468.

(** The proleptic Gregorian date of a day number. *)
Definition civil_from_days (d : Day) : civil :=
  let z := d + 719468 in
  let era := z / 146097 in
  let doe := z - era * 146097 in
  let yoe := (doe - doe / 1460 + doe / 36524 - doe / 146096) / 365 in
  let doy := doe - (365 * yoe + yoe / 4 - yoe / 100) in
  let mp := (5 * doy + 2) / 153 in
  let dd := doy - (153 * mp + 2) / 5 + 1 in
  let m := if mp <? 10 then mp + 3 else mp - 9 in
  let y := yoe + era * 400 in
  Civil (if m <=? 2 then y + 1 else y) m dd.

(** ['YYYY-MM-DD'] written out. *)
Definition ymd (y m d : Z) : Day := days_from_civil (Civil y m d).

(** A date field of a row or of a request: a ['YYYY-MM-DD'] string or a
    [Date] object. *)
Inductive DateVal :=
| DateStr (d : Day)
| DateObj (t : Instant).

#[export] Instance DateVal_eq_dec : EqDecision DateVal.
Proof. solve_decision. Defined.

(** [new Date(x)]: a date-only string is midnight UTC of that day. *)
Definition new_Date (x : DateVal) : Instant :=
  match x with
  | DateStr d => d * msPerDay
  | DateObj t => t
  end.

(** [Moment(x).format('YYYY-MM-DD')]. *)
Definition format_YMD (x : DateVal) : Day :=
  match x with
  | DateStr d => d
  | DateObj t => t / msPerDay
  end.

(** [new Date(s).getDate()], [.getMonth()] (0 is January) and
    [.getYear()] (years since 1900) of a ['YYYY-MM-DD'] string. *)
Definition getDate (s : Day) : Z := cday (civil_from_days s).
Definition getMonth (s : Day) : Z := cmonth (civil_from_days s) - 1.
Definition getYear (s : Day) : Z := cyear (civil_from_days s) - 1900.

(** [Moment(s, 'YYYY-MM-DD')]: midnight of that day. *)
Definition parse_YMD (s : Day) : Instant := s * msPerDay.

(** Day of the week of an instant, 0 is Sunday (1970-01-01 was a
    Thursday). *)
Definition weekday (t : Instant) : Z := (t / msPerDay + 4) mod 7.

(** [.startOf('week')] in Moment's default locale: Sunday, 00:00:00.000. *)
Definition startOf_week (t : Instant) : Instant :=
  (t / msPerDay - weekday t) * msPerDay.

(** [.endOf('week')]: Saturday, 23:59:59.999. *)
Definition endOf_week (t : Instant) : Instant :=
  startOf_week t + 7 * msPerDay - 1.

(** [.add(n, 'days')]. *)
Definition add_days (n : Z) (t : Instant) : Instant := t + n * msPerDay.

End Moment.

Import Moment.

(** ** Rows and requests *)

(** A row of [queryIncomeExpense]: the fields the controller reads. *)
Record Posting := {
  trans_id : string;
  trans_date : DateVal;
  period_id : Z;
  label : string;
  debit_equiv : Z;
  credit_equiv : Z;
  currency_id : Z;
  origin_id : Z;
  transactionType : string
}.

(** A period: a row of table [period] (with [id]) or a week made by
    [getWeeks] (with [week] and no [id]). *)
Record Period := {
  id : option Z;
  week : option Z;
  start_date : DateVal;
  end_date : DateVal
}.

#[export] Instance Posting_eq_dec : EqDecision Posting.
Proof. solve_decision. Defined.

#[export] Instance Period_eq_dec : EqDecision Period.
Proof. solve_decision. Defined.

(** ** getWeeks *)

(** One pass through the body of the [do ... while] loop of [getWeeks]: the
    week of [first] is pushed and [first] moves on by seven days. [inc] is
    the constant 0, so every week is numbered [inc + 1]. *)
Definition getWeeks_body (first : Instant) (weeks : list Period)
  : Instant * list Period :=
  let inc := 0 in
  let first1 := startOf_week first in
  let last := endOf_week first1 in
  (add_days 7 first1,
   weeks ++ [ {| id := None; week := Some (inc + 1);
                 start_date := DateObj first1; end_date := DateObj last |} ]).

Lemma startOf_week_bounds t : t - 7 * msPerDay < startOf_week t <= t.
Proof.
  unfold startOf_week, weekday, msPerDay.
  pose proof (Z.mod_pos_bound (t / 86400000 + 4) 7 ltac:(lia)).
  pose proof (Z.mul_div_le t 86400000 ltac:(lia)).
  pose proof (Z.mod_pos_bound t 86400000 ltac:(lia)).
  pose proof (Z.div_mod t 86400000 ltac:(lia)).
  lia.
Qed.

(** Moving to the start of the week and on by seven days lands on a later
    day. *)
Lemma add_week_day t :
  add_days 7 (startOf_week t) / msPerDay = t / msPerDay - weekday t + 7
  /\ t / msPerDay < add_days 7 (startOf_week t) / msPerDay.
Proof.
  assert (Hd : add_days 7 (startOf_week t) = (t / msPerDay - weekday t + 7) * msPerDay)
    by (unfold add_days, startOf_week; lia).
  rewrite Hd, Z.div_mul by discriminate.
  pose proof (Z.mod_pos_bound (t / msPerDay + 4) 7 ltac:(lia)).
  unfold weekday. lia.
Qed.

(** The outcome of a test, kept together with its equation. *)
Definition inspect {A} (a : A) : { b : A | a = b } := exist _ a eq_refl.

(** The loop of [getWeeks]: the body runs, then the condition
    [first.toDate() <= new Date(dateTo)] is tested. *)
Equations? getWeeks_loop (dateTo : Day) (first : Instant) (weeks : list Period)
  : list Period by wf (Z.to_nat (dateTo + 1 - first / msPerDay)) lt :=
  getWeeks_loop dateTo first weeks with
      inspect ((getWeeks_body first weeks).1 <=? new_Date (DateStr dateTo)) := {
    | exist _ true Hle :=
        getWeeks_loop dateTo (getWeeks_body first weeks).1 (getWeeks_body first weeks).2
    | exist _ false Hgt := (getWeeks_body first weeks).2 }.
Proof.
  apply Z.leb_le in Hle. cbn [getWeeks_body fst new_Date] in *.
  pose proof (add_week_day first) as [Hday Hnext].
  apply (Z.div_le_mono _ _ msPerDay) in Hle; [| reflexivity].
  rewrite Z.div_mul in Hle by discriminate. lia.
Qed.

(** [getWeeks(dateFrom, dateTo)]. *)
Definition getWeeks (dateFrom dateTo : Day) : list Period :=
  getWeeks_loop dateTo (parse_YMD dateFrom) [].


(** ** Errors, queries and promises *)

(** [new BadRequest(description, code)]. *)
Inductive Error :=
| BadRequest (description code : string).

(** Modelled from the spec: the class [lib/errors/BadRequest] is required by
    the controller and is not among its sources; the specification gives the
    errors it raises as client-facing 400-class errors. *)
Definition status (e : Error) : Z :=
  match e with
  | BadRequest _ _ => 400
  end.

(** A round trip to the database, as recorded in the order of execution. *)
Inductive Query :=
| QPeriods (dateFrom dateTo : Day)
| QOpeningBalance (account : string) (date : DateVal)
| QIncomeExpense (account : string) (dateFrom dateTo : Day).

(** What the controller reads from the database. [opening_balance] stands
    for [AccountsExtra.getOpeningBalanceForDate] and [income_expense] for the
    rows the statement of [queryIncomeExpense] selects; both are taken as
    given, and every query is answered. *)
Record Database := {
  period_table : list Period;
  opening_balance : string -> DateVal -> option Z;
  income_expense : string -> Day -> Day -> list Posting
}.

(** A promise: it extends the record of executed queries and is either
    rejected with an error or resolved with a value. *)
Definition Promise (A : Type) : Type := list Query -> (Error + A) * list Query.

Definition resolve {A} (a : A) : Promise A := fun log => (inr a, log).

Definition reject {A} (e : Error) : Promise A := fun log => (inl e, log).

(** [p.then(k)]: a rejection skips [k]. *)
Definition then_ {A B} (p : Promise A) (k : A -> Promise B) : Promise B :=
  fun log =>
    match p log with
    | (inl e, log') => (inl e, log')
    | (inr a, log') => k a log'
    end.

(** [db.exec(q)] resolving with [rows]. *)
Definition db_exec {A} (q : Query) (rows : A) : Promise A :=
  fun log => (inr rows, log ++ [q]).

Notation "x <- p ;; k" := (then_ p (fun x => k))
  (at level 100, p at next level, right associativity).

(** How a call ends: an exception thrown before a promise exists, a rejected
    promise or a resolved one. *)
Inductive Outcome (A : Type) :=
| Thrown (e : Error)
| Rejected (e : Error)
| Resolved (a : A).
Arguments Thrown {A} e.
Arguments Rejected {A} e.
Arguments Resolved {A} a.

(** Running a promise from an empty record of queries. *)
Definition settle {A} (p : Promise A) : Outcome A * list Query :=
  match p [] with
  | (inl e, log) => (Rejected e, log)
  | (inr a, log) => (Resolved a, log)
  end.

(** ** The JSON pipeline *)

(** The query parameters of a request. [account_id] is [None] when the
    parameter is absent; [weekly] is the truth value of [params.weekly]. *)
Record Params := {
  account_id : option string;
  dateFrom : DateVal;
  dateTo : DateVal;
  weekly : bool
}.

(** [!params.account_id]: an absent or empty parameter. *)
Definition missing (a : option string) : bool :=
  match a with
  | None => true
  | Some s => bool_decide (s = EmptyString)
  end.

(** A bucket of [groupByPeriod]: [{ period, flows }]. *)
Record PeriodicFlow := {
  pf_period : Period;
  pf_flows : list Posting
}.

(** An entry of [groupingIncomeExpenseByPeriod]:
    [{ period, incomes, expenses }]. *)
Record Flow := {
  period : Period;
  incomes : list Posting;
  expenses : list Posting
}.

(** The opening balance of the result: the object [{ balance, account_id }]
    the controller builds, or, in weekly mode, whatever
    [getOpeningBalanceForDate] resolved with, which is taken to be a
    number. *)
Inductive Balance :=
| BalanceObj (balance : Z) (account : option string)
| BalanceRaw (v : Z).

(** The resolved value: [{ openningBalance, flows }]. *)
Record Report := {
  openningBalance : Balance;
  flows : list Flow
}.

(** [getPeriods]: the rows of [period] selected by the WHERE clause, [DATE]
    being the day of a date. *)
Definition getPeriods_where (dateFrom dateTo : Day) (p : Period) : bool :=
  let start := format_YMD (start_date p) in
  let end_ := format_YMD (end_date p) in
  ((dateFrom <=? start) && (end_ <=? dateTo))
  || ((start <=? dateFrom) && (dateFrom <=? end_))
  || ((start <=? dateTo) && (dateTo <=? end_)).

Definition getPeriods (db : Database) (dateFrom dateTo : Day)
  : Promise (list Period) :=
  db_exec (QPeriods dateFrom dateTo)
          (filter (fun p => getPeriods_where dateFrom dateTo p = true) (period_table db)).

(** [queryIncomeExpense(params)] as the pipelines call it, with two
    undefined arguments. *)
Definition queryIncomeExpense (db : Database) (account : string)
    (dateFrom dateTo : Day) : Promise (list Posting) :=
  db_exec (QIncomeExpense account dateFrom dateTo)
          (income_expense db account dateFrom dateTo).

Definition getOpeningBalanceForDate (db : Database) (account : string)
    (date : DateVal) : Promise (option Z) :=
  db_exec (QOpeningBalance account date) (opening_balance db account date).

(** [groupingIncomeExpenseByPeriod]. *)
Definition groupingIncomeExpenseByPeriod (periodicFlows : list PeriodicFlow)
  : list Flow :=
  foldl (fun grouping pf =>
           let incomes := filter (fun posting => debit_equiv posting > 0) (pf_flows pf) in
           let expenses := filter (fun posting => credit_equiv posting > 0) (pf_flows pf) in
           grouping ++ [ {| period := pf_period pf; incomes := incomes;
                            expenses := expenses |} ])
        [] periodicFlows.

(** [groupByPeriod]. An [id] is compared with [===]: a week, which has no
    [id], equals no [period_id]. *)
Definition groupByPeriod (periods : list Period) (flows : list Posting)
    (weekly : bool) : list PeriodicFlow :=
  foldl (fun grouping p =>
           let data :=
             foldl (fun data f =>
                      if weekly then
                        let transDate := new_Date (trans_date f) in
                        let startDate := new_Date (start_date p) in
                        let endDate := new_Date (end_date p) in
                        if (transDate <=? endDate) && (transDate >=? startDate)
                        then data ++ [f] else data
                      else if decide (id p = Some (period_id f))
                      then data ++ [f] else data)
                   [] flows in
           grouping ++ [ {| pf_period := p; pf_flows := data |} ])
        [] periods.

(** [if (balance)]: a number other than zero. *)
Definition truthy (balance : option Z) : option Z :=
  match balance with
  | Some b => if decide (b = 0) then None else Some b
  | None => None
  end.

(** [processingCashflowReport]. Past the first test [params.account_id] is
    a string that is not empty. *)
Definition processingCashflowReport (db : Database) (params : Params)
  : Outcome Report * list Query :=
  if missing (account_id params) then
    (Thrown (BadRequest "Cashbox is missing" "ERRORS.BAD_REQUEST"), [])
  else
    let account := default EmptyString (account_id params) in
    let dateFrom := format_YMD (dateFrom params) in
    let dateTo := format_YMD (dateTo params) in
    settle (
      periods <- getPeriods db dateFrom dateTo ;;
      balance <- match periods with
                 | [] => reject (BadRequest "Periods not found due to a bad date interval"
                                            "ERRORS.BAD_DATE_INTERVAL")
                 | p0 :: _ => getOpeningBalanceForDate db account (start_date p0)
                 end ;;
      let openningBalance :=
        match truthy balance with
        | Some b => BalanceObj b None
        | None => BalanceObj 0 None
        end in
      result <- queryIncomeExpense db account dateFrom dateTo ;;
      flw <- resolve (groupingIncomeExpenseByPeriod (groupByPeriod periods result false)) ;;
      resolve {| openningBalance := openningBalance; flows := flw |}).

(** [glb.periods[0].start_date = params.dateFrom]: the first period object is
    updated in place, and it is this object the buckets refer to. *)
Definition set_first_start (dateFrom : Day) (periods : list Period) : list Period :=
  match periods with
  | [] => []
  | p0 :: rest =>
      {| id := id p0; week := week p0; start_date := DateStr dateFrom;
         end_date := end_date p0 |} :: rest
  end.

(** [processingWeekCashflow]. *)
Definition processingWeekCashflow (db : Database) (params : Params)
  : Outcome Report * list Query :=
  if missing (account_id params) then
    (Thrown (BadRequest "Cashbox is missing" "ERRORS.BAD_REQUEST"), [])
  else
    let account := default EmptyString (account_id params) in
    let dateFrom := format_YMD (dateFrom params) in
    let dateTo := format_YMD (dateTo params) in
    let periods := getWeeks dateFrom dateTo in
    match periods with
    | [] => (Thrown (BadRequest "Periods not found due to a bad date interval"
                                "ERRORS.BAD_DATE_INTERVAL"), [])
    | _ :: _ =>
        let periods := set_first_start dateFrom periods in
        settle (
          balance <- getOpeningBalanceForDate db account (DateStr dateFrom) ;;
          let openningBalance :=
            match truthy balance with
            | Some b => BalanceRaw b
            | None => BalanceObj 0 (Some account)
            end in
          result <- queryIncomeExpense db account dateFrom dateTo ;;
          flows <- resolve (groupingIncomeExpenseByPeriod
                              (groupByPeriod periods result (weekly params))) ;;
          resolve {| openningBalance := openningBalance; flows := flows |})
    end.

(** ** The rendered document: [reporting] and its helpers *)

(** An element of [session.summationIncome[period]] and of
    [session.summationExpense[period]]. *)
Record Entry := {
  transfer_type : string;
  entry_currency_id : Z;
  value : Z
}.

(** The part of [session] that [reporting] fills. The objects keyed by
    period are maps keyed by the period's ['YYYY-MM-DD'] start. A balance is
    [None] where JavaScript has [undefined] or [NaN]. *)
Record Session := {
  accountName : option string;
  session_openningBalance : option Z;
  summationIncome : gmap Day (list Entry);
  summationExpense : gmap Day (list Entry);
  sum_incomes : gmap Day Z;
  sum_expense : gmap Day Z;
  periodicBalance : gmap Day (option Z);
  periodicOpenningBalance : gmap Day (option Z);
  incomesLabels : list string;
  expensesLabels : list string;
  periodStartArray : list Day
}.

(** [arr.indexOf(x)]: the first index of [x], or -1. *)
Fixpoint indexOf {A} `{EqDecision A} (arr : list A) (x : A) : Z :=
  match arr with
  | [] => -1
  | y :: rest =>
      if decide (y = x) then 0
      else let i := indexOf rest x in if decide (i = -1) then -1 else i + 1
  end.

(** [arr[i]] for an integer [i]: [undefined] outside the array. *)
Definition at_index {A} (arr : list A) (i : Z) : option A :=
  if decide (i < 0) then None else arr !! Z.to_nat i.

(** [Number(x) + Number(y)] and [Number(x) - Number(y)]. *)
Definition num_add (x y : option Z) : option Z :=
  match x, y with
  | Some a, Some b => Some (a + b)
  | _, _ => None
  end.

Definition num_sub (x y : option Z) : option Z :=
  match x, y with
  | Some a, Some b => Some (a - b)
  | _, _ => None
  end.

(** [initialization], on a session that has no account name yet. *)
Definition initialization : Session :=
  {| accountName := None; session_openningBalance := None;
     summationIncome := ∅; summationExpense := ∅;
     sum_incomes := ∅; sum_expense := ∅;
     periodicBalance := ∅; periodicOpenningBalance := ∅;
     incomesLabels := []; expensesLabels := [];
     periodStartArray := [] |}.

(** The names of the properties that every object inherits from
    [Object.prototype]. An object that has no such property of its own, read
    at one of these names, gives the inherited function or object, which is
    truthy. *)
Definition inherited_names : list string :=
  [ "constructor"; "hasOwnProperty"; "isPrototypeOf"; "propertyIsEnumerable";
    "toLocaleString"; "toString"; "valueOf"; "__proto__"; "__defineGetter__";
    "__defineSetter__"; "__lookupGetter__"; "__lookupSetter__" ].

(** The [filter] that removes duplicates in [groupingResult]. Its cache is
    the object [{}], modelled by the set of the labels entered in it:
    [cache[label]] is truthy when the label has been entered or is an
    inherited name. An element is kept when [cache[label]] is not truthy, and
    its label is then entered. *)
Definition remove_duplicates (entries : list Entry) : list Entry :=
  (foldl (fun '(cache, kept) elem =>
            if decide (transfer_type elem ∈ (cache : gset string)
                       \/ transfer_type elem ∈ inherited_names)
            then (cache, kept)
            else ({[ transfer_type elem ]} ∪ cache, kept ++ [elem]))
         (∅, []) entries).2.

(** The entries [groupingResult] pushes for a list of postings: one for each
    item with an [origin_id], its value being the [reduce] over the whole
    list. [amount] is [debit_equiv] for incomes and [credit_equiv] for
    expenses. *)
Definition pushed_entries (amount : Posting -> Z) (postings : list Posting)
  : list Entry :=
  foldl (fun summation item =>
           if decide (origin_id item ≠ 0) then
             let value :=
               foldl (fun a b =>
                        if decide (origin_id b = origin_id item)
                        then amount b + a else a)
                     0 postings in
             summation ++ [ {| transfer_type := transactionType item;
                               entry_currency_id := currency_id item;
                               value := value |} ]
           else summation)
        [] postings.

(** [!session.accountName]. *)
Definition no_name (name : option string) : bool :=
  match name with
  | None => true
  | Some s => bool_decide (s = EmptyString)
  end.

(** [groupingResult(incomes, expenses, period)]. The second test for the
    account name reads [expenses.lenght], which no array has, so the name is
    only ever taken from the incomes. *)
Definition groupingResult (incomes expenses : list Posting) (period : Day)
    (session : Session) : Session :=
  let name :=
    match incomes with
    | first :: _ => if no_name (accountName session) then Some (label first)
                    else accountName session
    | [] => accountName session
    end in
  {| accountName := name;
     session_openningBalance := session_openningBalance session;
     summationIncome :=
       <[ period := remove_duplicates (pushed_entries debit_equiv incomes) ]>
         (summationIncome session);
     summationExpense :=
       <[ period := remove_duplicates (pushed_entries credit_equiv expenses) ]>
         (summationExpense session);
     sum_incomes := sum_incomes session;
     sum_expense := sum_expense session;
     periodicBalance := periodicBalance session;
     periodicOpenningBalance := periodicOpenningBalance session;
     incomesLabels := incomesLabels session;
     expensesLabels := expensesLabels session;
     periodStartArray := periodStartArray session |}.

(** [isFirstPeriod(period)]. With no reference the dates are invalid and
    every comparison is false. *)
Definition isFirstPeriod (session : Session) (period : Day) : bool :=
  match periodStartArray session !! 0%nat with
  | Some reference =>
      if (getDate reference =? 1) && (getMonth reference =? 0)
      then (getDate period =? 1) && (getMonth period =? 0)
      else (getDate period =? getDate reference)
           && (getMonth period =? getMonth reference)
           && (getYear period =? getYear reference)
  | None => false
  end.

(** [previousPeriod(period)]. *)
Definition previousPeriod (session : Session) (period : Day) : option Day :=
  let currentIndex := indexOf (periodStartArray session) period in
  if decide (currentIndex ≠ 0)
  then at_index (periodStartArray session) (currentIndex - 1)
  else at_index (periodStartArray session) currentIndex.

(** [balances[k]], [k] being a period or [undefined]. *)
Definition balance_at (balances : gmap Day (option Z)) (k : option Day)
  : option Z :=
  match k with
  | Some k => match balances !! k with
              | Some v => v
              | None => None
              end
  | None => None
  end.

(** [summarization(period)]. *)
Definition summarization (period : Day) (session : Session) : Session :=
  let entries_in := default [] (summationIncome session !! period) in
  let entries_out := default [] (summationExpense session !! period) in
  let sum_in := foldl (fun sum transaction => sum + value transaction) 0 entries_in in
  let sum_out := foldl (fun sum transaction => sum + value transaction) 0 entries_out in
  let labels_in :=
    foldl (fun labels transaction => labels ++ [transfer_type transaction])
          (incomesLabels session) entries_in in
  let labels_out :=
    foldl (fun labels transaction => labels ++ [transfer_type transaction])
          (expensesLabels session) entries_out in
  let balance :=
    if isFirstPeriod session period
    then num_sub (num_add (session_openningBalance session) (Some sum_in)) (Some sum_out)
    else num_sub (num_add (balance_at (periodicBalance session)
                                      (previousPeriod session period))
                          (Some sum_in)) (Some sum_out) in
  let balances := <[ period := balance ]> (periodicBalance session) in
  let opening :=
    if isFirstPeriod session period
    then session_openningBalance session
    else balance_at balances (previousPeriod session period) in
  {| accountName := accountName session;
     session_openningBalance := session_openningBalance session;
     summationIncome := summationIncome session;
     summationExpense := summationExpense session;
     sum_incomes := <[ period := sum_in ]> (sum_incomes session);
     sum_expense := <[ period := sum_out ]> (sum_expense session);
     periodicBalance := balances;
     periodicOpenningBalance := <[ period := opening ]> (periodicOpenningBalance session);
     incomesLabels := labels_in;
     expensesLabels := labels_out;
     periodStartArray := periodStartArray session |}.

(** [rows.openningBalance.balance]: a number has no such property. *)
Definition balance_of (b : Balance) : option Z :=
  match b with
  | BalanceObj balance _ => Some balance
  | BalanceRaw _ => None
  end.

(** The key of a flow: [Moment(flow.period.start_date).format('YYYY-MM-DD')]. *)
Definition period_key (flow : Flow) : Day := format_YMD (start_date (period flow)).

(** [session.openningBalance = b]. *)
Definition set_openningBalance (b : option Z) (session : Session) : Session :=
  {| accountName := accountName session;
     session_openningBalance := b;
     summationIncome := summationIncome session;
     summationExpense := summationExpense session;
     sum_incomes := sum_incomes session;
     sum_expense := sum_expense session;
     periodicBalance := periodicBalance session;
     periodicOpenningBalance := periodicOpenningBalance session;
     incomesLabels := incomesLabels session;
     expensesLabels := expensesLabels session;
     periodStartArray := periodStartArray session |}.

(** [session.periodStartArray = starts]. *)
Definition set_periodStartArray (starts : list Day) (session : Session) : Session :=
  {| accountName := accountName session;
     session_openningBalance := session_openningBalance session;
     summationIncome := summationIncome session;
     summationExpense := summationExpense session;
     sum_incomes := sum_incomes session;
     sum_expense := sum_expense session;
     periodicBalance := periodicBalance session;
     periodicOpenningBalance := periodicOpenningBalance session;
     incomesLabels := incomesLabels session;
     expensesLabels := expensesLabels session;
     periodStartArray := starts |}.

(** [reporting(rows)], up to the running balances; the date ranges it adds
    at the end are left out. *)
Definition reporting (rows : Report) : Session :=
  let session := initialization in
  let session := set_openningBalance (balance_of (openningBalance rows)) session in
  let session :=
    foldl (fun session flow =>
             groupingResult (incomes flow) (expenses flow) (period_key flow) session)
          session (flows rows) in
  let session := set_periodStartArray (map period_key (flows rows)) session in
  foldl (fun session flow => summarization (period_key flow) session)
        session (flows rows).

(** ** The report by service *)

(** A row of the cash flow query of [reportByService]: the fields the matrix
    reads. *)
Record ServiceRow := {
  reference : string;
  display_name : string;
  name : string;
  cashAmount : Z;
  cumsum : Z
}.

(** A cell of the matrix. *)
Inductive Cell :=
| Null
| Text (s : string)
| Number (n : Z).

(** [line[i] = x] on an array: inside it the element is replaced, past its
    end the array grows, the gap being left empty. The matrix only writes
    inside. *)
Definition set_index (i : Z) (x : Cell) (line : list Cell) : list Cell :=
  if decide (i < 0) then line
  else if decide (Z.to_nat i < length line)%nat then <[ Z.to_nat i := x ]> line
  else line ++ replicate (Z.to_nat i - length line) Null ++ [x].

(** The line of one row, for the service names [services]. *)
Definition matrix_line (services : list string) (row : ServiceRow) : list Cell :=
  let xAxis := Z.of_nat (length services) in
  let line := replicate (Z.to_nat (xAxis + 3)) Null in
  let line := set_index 0 (Text (reference row)) line in
  let line := set_index 1 (Text (display_name row)) line in
  let idx := indexOf services (name row) + 2 in
  let line := set_index idx (Number (cashAmount row)) line in
  set_index (xAxis + 2) (Number (cumsum row)) line.

(** [data.matrix]: one line for each row of the query. *)
Definition matrix (services : list string) (rows : list ServiceRow)
  : list (list Cell) :=
  map (matrix_line services) rows.

(** ** The vocabulary of the properties *)

(** The week of [dateFrom], as [getWeeks] builds it. *)
Definition week_of (dateFrom : Day) : Period :=
  {| id := None; week := Some 1;
     start_date := DateObj (startOf_week (parse_YMD dateFrom));
     end_date := DateObj (endOf_week (startOf_week (parse_YMD dateFrom))) |}.

(** The test of [groupByPeriod], in words: the period's [id] in calendar
    mode, the inclusive range of the period in weekly mode. *)
Definition in_period (weekly : bool) (p : Period) (f : Posting) : Prop :=
  if weekly
  then new_Date (start_date p) <= new_Date (trans_date f) <= new_Date (end_date p)
  else id p = Some (period_id f).

#[export] Instance in_period_dec weekly p f : Decision (in_period weekly p f).
Proof. unfold in_period. destruct weekly; apply _. Defined.

(** The two errors of the pipelines. *)
Definition cashbox_missing : Error :=
  BadRequest "Cashbox is missing" "ERRORS.BAD_REQUEST".

Definition bad_date_interval : Error :=
  BadRequest "Periods not found due to a bad date interval" "ERRORS.BAD_DATE_INTERVAL".

(** The total of [amount] over the postings of one origin. *)
Definition total_by_origin (amount : Posting -> Z) (origin : Z)
    (postings : list Posting) : Z :=
  foldr Z.add 0 (amount <$> filter (fun b => origin_id b = origin) postings).

(** The entry pushed for an item. *)
Definition entry_of (amount : Posting -> Z) (postings : list Posting)
    (item : Posting) : Entry :=
  {| transfer_type := transactionType item;
     entry_currency_id := currency_id item;
     value := total_by_origin amount (origin_id item) postings |}.

(** What a summation list is for the postings it was made from: no label
    twice; every entry made from a posting with an origin, its value being
    the total of that origin over the postings; and the label of a posting
    with an origin present exactly when it is not a name that the cache of
    the filter inherits. *)
Definition summation_of (amount : Posting -> Z) (postings : list Posting)
    (summation : list Entry) : Prop :=
  NoDup (transfer_type <$> summation)
  /\ (forall e, e ∈ summation ->
        exists item,
          item ∈ postings /\ origin_id item ≠ 0
          /\ transfer_type e = transactionType item
          /\ entry_currency_id e = currency_id item
          /\ value e = total_by_origin amount (origin_id item) postings)
  /\ (forall item, item ∈ postings -> origin_id item ≠ 0 ->
        (transactionType item ∈ (transfer_type <$> summation)
         <-> transactionType item ∉ inherited_names)).

(** The sum [summarization] computes over a summation list. *)
Definition entry_sum (entries : list Entry) : Z :=
  foldl (fun sum transaction => sum + value transaction) 0 entries.

(** ** Requests and rows used as examples *)

(** The row of table [period] for the month [m] of the year [y], whose last
    day is [last]. *)
Definition month (n : Z) (y m last : Z) : Period :=
  {| id := Some n; week := None;
     start_date := DateObj (parse_YMD (ymd y m 1));
     end_date := DateObj (parse_YMD (ymd y m last)) |}.

(** A database with the three first months of 2024 as periods, an opening
    balance of 100 and no posting. *)
Definition db_2024 : Database :=
  {| period_table := [ month 1 2024 1 31; month 2 2024 2 29; month 3 2024 3 31 ];
     opening_balance := fun _ _ => Some 100;
     income_expense := fun _ _ _ => [] |}.

(** The scenario of the weekly report: from Tuesday 2024-03-05 to
    2024-03-20. *)
Definition march_2024 : Params :=
  {| account_id := Some "3627"; dateFrom := DateStr (ymd 2024 3 5);
     dateTo := DateStr (ymd 2024 3 20); weekly := true |}.

(** A request with dates and no cashbox. *)
Definition no_cashbox : Params :=
  {| account_id := None; dateFrom := DateStr (ymd 2024 1 1);
     dateTo := DateStr (ymd 2024 3 31); weekly := false |}.

(** A request whose [dateFrom], 2024-03-20, is after its [dateTo],
    2024-01-05. *)
Definition backwards (weekly : bool) : Params :=
  {| account_id := Some "3627"; dateFrom := DateStr (ymd 2024 3 20);
     dateTo := DateStr (ymd 2024 1 5); weekly := weekly |}.

(** A database with no period at all. *)
Definition db_no_period : Database :=
  {| period_table := [];
     opening_balance := fun _ _ => None;
     income_expense := fun _ _ _ => [] |}.

(** The starts of the months from January 2016 to January 2017. *)
Definition starts_2016 : list Day :=
  [ ymd 2016 1 1; ymd 2016 2 1; ymd 2016 3 1; ymd 2016 4 1; ymd 2016 5 1;
    ymd 2016 6 1; ymd 2016 7 1; ymd 2016 8 1; ymd 2016 9 1; ymd 2016 10 1;
    ymd 2016 11 1; ymd 2016 12 1; ymd 2017 1 1 ].

(** A session with these period starts. *)
Definition session_2016 : Session :=
  {| accountName := None; session_openningBalance := Some 100;
     summationIncome := ∅; summationExpense := ∅;
     sum_incomes := ∅; sum_expense := ∅;
     periodicBalance := ∅; periodicOpenningBalance := ∅;
     incomesLabels := []; expensesLabels := [];
     periodStartArray := starts_2016 |}.

(** A payment for the service of the pharmacy. *)
Definition payment : ServiceRow :=
  {| reference := "CP.TPA.1"; display_name := "Patient"; name := "Pharmacy";
     cashAmount := 25; cumsum := 125 |}.

(** A posting of amount [debit] or [credit] with an origin. *)
Definition posting (trans : string) (date : Day) (pid debit credit origin : Z)
    (type : string) : Posting :=
  {| trans_id := trans; trans_date := DateObj (parse_YMD date); period_id := pid;
     label := "Caisse principale"; debit_equiv := debit; credit_equiv := credit;
     currency_id := 2; origin_id := origin; transactionType := type |}.

(** The scenario of two periods: January opens with 100 and has incomes of
    500 and expenses of 200; February has incomes of 300 and expenses of
    400. *)
Definition rows_two_periods : Report :=
  {| openningBalance := BalanceObj 100 None;
     flows :=
       [ {| period := month 1 2024 1 31;
            incomes := [ posting "TRANS1" (ymd 2024 1 10) 1 500 0 2 "CASH_PAYMENT" ];
            expenses := [ posting "TRANS2" (ymd 2024 1 20) 1 0 200 8 "PURCHASES" ] |};
         {| period := month 2 2024 2 29;
            incomes := [ posting "TRANS3" (ymd 2024 2 10) 2 300 0 2 "CASH_PAYMENT" ];
            expenses := [ posting "TRANS4" (ymd 2024 2 20) 2 0 400 8 "PURCHASES" ] |} ] |}.

(** Thirteen months from January 2016, with one income of 500 in January
    2016 and an opening balance of 100. *)
Definition rows_2016 : Report :=
  {| openningBalance := BalanceObj 100 None;
     flows :=
       {| period := month 1 2016 1 31;
          incomes := [ posting "TRANS1" (ymd 2016 1 10) 1 500 0 2 "CASH_PAYMENT" ];
          expenses := [] |}
       :: map (fun p => {| period := p; incomes := []; expenses := [] |})
            [ month 2 2016 2 29; month 3 2016 3 31; month 4 2016 4 30;
              month 5 2016 5 31; month 6 2016 6 30; month 7 2016 7 31;
              month 8 2016 8 31; month 9 2016 9 30; month 10 2016 10 31;
              month 11 2016 11 30; month 12 2016 12 31; month 13 2017 1 31 ] |}.

(** * Properties *)

(** ** Dates *)

(** The year of the era and the day of the year of a day of the era. *)
Lemma doy_bounds doe :
  0 <= doe < 146097 ->
  let yoe := (doe - doe / 1460 + doe / 36524 - doe / 146096) / 365 in
  0 <= yoe < 400 /\ 0 <= doe - (365 * yoe + yoe / 4 - yoe / 100) < 366.
Proof.
  intros Hdoe yoe. unfold yoe. Z.div_mod_to_equations. lia.
Qed.

(** The month and the day of the month of a day of the year, and back. *)
Lemma month_day_round_trip doy :
  0 <= doy < 366 ->
  let mp := (5 * doy + 2) / 153 in
  let dd := doy - (153 * mp + 2) / 5 + 1 in
  let m := if mp <? 10 then mp + 3 else mp - 9 in
  0 <= mp < 12 /\ 1 <= m <= 12 /\ 1 <= dd <= 31
  /\ (m + 9) mod 12 = mp /\ (153 * mp + 2) / 5 + dd - 1 = doy
  /\ (m <= 2 <-> 10 <= mp).
Proof.
  intros Hdoy mp dd m. unfold dd, m.
  assert (Hmp : 0 <= mp < 12) by (unfold mp; Z.div_mod_to_equations; lia).
  destruct (mp <? 10) eqn:H10; [apply Z.ltb_lt in H10 | apply Z.ltb_ge in H10].
  all: unfold mp in *; repeat split; Z.div_mod_to_equations; lia.
Qed.

(** The calendar date of a day number leads back to the day number. *)
Lemma civil_round_trip d : days_from_civil (civil_from_days d) = d.
Proof.
  unfold days_from_civil, civil_from_days. cbn [cyear cmonth cday].
  set (z := d + 719468).
  set (era := z / 146097).
  set (doe := z - era * 146097).
  assert (Hdoe : 0 <= doe < 146097).
  { unfold doe, era. pose proof (Z.div_mod z 146097 ltac:(lia)).
    pose proof (Z.mod_pos_bound z 146097 ltac:(lia)). lia. }
  destruct (doy_bounds doe Hdoe) as [Hyoe Hdoy].
  set (yoe := (doe - doe / 1460 + doe / 36524 - doe / 146096) / 365) in *.
  set (doy := doe - (365 * yoe + yoe / 4 - yoe / 100)) in *.
  destruct (month_day_round_trip doy Hdoy) as (Hmp & Hm & Hdd & Hmod & Hback & Hle).
  set (mp := (5 * doy + 2) / 153) in *.
  set (m := if mp <? 10 then mp + 3 else mp - 9) in *.
  set (dd := doy - (153 * mp + 2) / 5 + 1) in *.
  assert (Hy : (if m <=? 2 then (if m <=? 2 then yoe + era * 400 + 1 else yoe + era * 400) - 1
                else (if m <=? 2 then yoe + era * 400 + 1 else yoe + era * 400))
               = yoe + era * 400).
  { destruct (m <=? 2); lia. }
  rewrite Hy, Hmod, Hback.
  assert (Hera : (yoe + era * 400) / 400 = era).
  { rewrite Z.div_add by lia. rewrite Z.div_small by lia. lia. }
  rewrite Hera. replace (yoe + era * 400 - era * 400) with yoe by lia.
  unfold doy, doe, z. lia.
Qed.

(** Two ['YYYY-MM-DD'] strings with the same day of the month, month and
    year are the same string. *)
Lemma same_calendar_day (s r : Day) :
  getDate s = getDate r -> getMonth s = getMonth r -> getYear s = getYear r ->
  s = r.
Proof.
  unfold getDate, getMonth, getYear. intros Hd Hm Hy.
  rewrite <- (civil_round_trip s), <- (civil_round_trip r).
  destruct (civil_from_days s), (civil_from_days r); cbn in *.
  f_equal. f_equal; lia.
Qed.

(** The epoch is a Thursday; the last day of 2099. *)
Example calendar_known_days :
  ymd 1970 1 1 = 0
  /\ weekday (parse_YMD (ymd 1970 1 1)) = 4
  /\ civil_from_days 47481 = Civil 2099 12 31.
Proof. vm_compute. repeat split. Qed.

(** ** Loops that push *)

Section Push.
Context {A B : Type}.

(** Two loop bodies that agree give the same loop. *)
Lemma foldl_agree (f g : B -> A -> B) (l : list A) (init : B) :
  (forall acc x, f acc x = g acc x) -> foldl f init l = foldl g init l.
Proof.
  intros Hfg. revert init. induction l as [| x l IH]; intros init; cbn; [done |].
  by rewrite Hfg, IH.
Qed.

(** A [forEach] that pushes [f x] for every [x] is a [map]. *)
Lemma foldl_push_map (f : A -> B) (l : list A) (init : list B) :
  foldl (fun acc x => acc ++ [f x]) init l = init ++ map f l.
Proof.
  revert init. induction l as [| x l IH]; intros init; cbn.
  - by rewrite app_nil_r.
  - by rewrite IH, <- app_assoc.
Qed.

(** A [forEach] that pushes the elements passing a test is a [filter]. *)
Lemma foldl_push_filter (P : A -> Prop) `{!forall x, Decision (P x)}
    (step : list A -> A -> list A) (l init : list A) :
  (forall acc x, step acc x = if decide (P x) then acc ++ [x] else acc) ->
  foldl step init l = init ++ filter P l.
Proof.
  intros Hstep. revert init. induction l as [| x l IH]; intros init.
  - cbn. by rewrite app_nil_r.
  - rewrite filter_cons. cbn [foldl]. rewrite IH, Hstep.
    destruct (decide (P x)); [| done].
    by rewrite <- app_assoc.
Qed.
End Push.

(** ** getWeeks *)

(** The first pass of the loop pushes its week whatever the dates are. *)
Lemma getWeeks_loop_pushes dateTo first weeks :
  exists more, getWeeks_loop dateTo first weeks = (getWeeks_body first weeks).2 ++ more.
Proof.
  funelim (getWeeks_loop dateTo first weeks).
  - match goal with IH : exists _, _ |- _ => destruct IH as [more Hmore] end.
    rewrite Hmore.
    exists ((getWeeks_body (getWeeks_body first weeks).1 []).2 ++ more).
    unfold getWeeks_body; cbn. by rewrite <- !app_assoc.
  - exists []. by rewrite app_nil_r.
Qed.

Lemma getWeeks_head dateFrom dateTo :
  exists rest, getWeeks dateFrom dateTo = week_of dateFrom :: rest.
Proof.
  destruct (getWeeks_loop_pushes dateTo (parse_YMD dateFrom) []) as [more H].
  exists more. unfold getWeeks. by rewrite H.
Qed.

(** ** The shape of the buckets *)

Lemma groupByPeriod_map periods flows weekly :
  groupByPeriod periods flows weekly
  = map (fun p => {| pf_period := p; pf_flows := filter (in_period weekly p) flows |})
        periods.
Proof.
  unfold groupByPeriod.
  rewrite <- (app_nil_l (map _ periods)), <- foldl_push_map.
  apply foldl_agree. intros grouping p. do 3 f_equal.
  rewrite <- (app_nil_l (filter _ flows)).
  apply foldl_push_filter. intros acc f.
  unfold in_period. destruct weekly.
  - destruct (decide _) as [[H1 H2] | H].
    + apply Z.leb_le in H2. apply Z.geb_le in H1. by rewrite H1, H2.
    + destruct (_ <=? _) eqn:H2; [| done].
      destruct (_ >=? _) eqn:H1; [| done].
      apply Z.leb_le in H2. apply Z.geb_le in H1. lia.
  - by destruct (decide _).
Qed.

Lemma groupingIncomeExpenseByPeriod_map periodicFlows :
  groupingIncomeExpenseByPeriod periodicFlows
  = map (fun pf => {| period := pf_period pf;
                      incomes := filter (fun posting => debit_equiv posting > 0) (pf_flows pf);
                      expenses := filter (fun posting => credit_equiv posting > 0) (pf_flows pf) |})
        periodicFlows.
Proof.
  unfold groupingIncomeExpenseByPeriod.
  by rewrite foldl_push_map.
Qed.

(** ** The two pipelines *)

Lemma not_missing a : missing a = false -> exists account, a = Some account.
Proof. destruct a; [eauto | done]. Qed.

(** What [processingWeekCashflow] resolves with when the cashbox is given. *)
Lemma processingWeekCashflow_resolved db params :
  missing (account_id params) = false ->
  exists account report,
    account_id params = Some account
    /\ processingWeekCashflow db params
       = (Resolved report,
          [ QOpeningBalance account (DateStr (format_YMD (dateFrom params)));
            QIncomeExpense account (format_YMD (dateFrom params))
                           (format_YMD (dateTo params)) ])
    /\ flows report
       = groupingIncomeExpenseByPeriod
           (groupByPeriod
              (set_first_start (format_YMD (dateFrom params))
                 (getWeeks (format_YMD (dateFrom params)) (format_YMD (dateTo params))))
              (income_expense db account (format_YMD (dateFrom params))
                              (format_YMD (dateTo params)))
              (weekly params)).
Proof.
  intros Hacc. destruct (not_missing _ Hacc) as [account Heq].
  exists account. unfold processingWeekCashflow. rewrite Hacc, Heq.
  destruct (getWeeks_head (format_YMD (dateFrom params)) (format_YMD (dateTo params)))
    as [rest ->].
  eexists. split; [done |]. split; reflexivity.
Qed.

(** What [processingCashflowReport] does when the cashbox is given. *)
Lemma processingCashflowReport_periods db params :
  missing (account_id params) = false ->
  let from := format_YMD (dateFrom params) in
  let to := format_YMD (dateTo params) in
  let periods := filter (fun p => getPeriods_where from to p = true) (period_table db) in
  exists account,
    account_id params = Some account
    /\ match periods with
       | [] => processingCashflowReport db params
               = (Rejected bad_date_interval, [QPeriods from to])
       | p0 :: _ =>
           exists report,
             processingCashflowReport db params
             = (Resolved report,
                [ QPeriods from to; QOpeningBalance account (start_date p0);
                  QIncomeExpense account from to ])
             /\ flows report
                = groupingIncomeExpenseByPeriod
                    (groupByPeriod periods (income_expense db account from to) false)
       end.
Proof.
  intros Hacc from to periods. destruct (not_missing _ Hacc) as [account Heq].
  exists account. split; [done |].
  unfold processingCashflowReport. rewrite Hacc, Heq.
  unfold settle, then_, getPeriods, db_exec.
  fold from to periods. destruct periods as [| p0 rest]; [done |].
  eexists. split; reflexivity.
Qed.

(** C10. [getWeeks] returns a list that is never empty: whatever the two
    dates are, also when [dateFrom] is after [dateTo], its first element is
    the week containing [dateFrom], pushed before the loop condition is
    tested. So [processingWeekCashflow] never takes its branch for an empty
    period list: it throws for a missing cashbox or it resolves, and the error
    of a bad date interval is not among its outcomes. *)
Theorem getWeeks_never_empty :
  forall dateFrom dateTo : Day,
    (exists rest, getWeeks dateFrom dateTo = week_of dateFrom :: rest)
    /\ (0 < length (getWeeks dateFrom dateTo))%nat
    /\ forall db params,
         ((processingWeekCashflow db params).1 = Thrown cashbox_missing
          \/ exists report, (processingWeekCashflow db params).1 = Resolved report)
         /\ (processingWeekCashflow db params).1 <> Thrown bad_date_interval
         /\ (processingWeekCashflow db params).1 <> Rejected bad_date_interval.
Proof.
  intros dateFrom dateTo. split; [apply getWeeks_head |]. split.
  { destruct (getWeeks_head dateFrom dateTo) as [rest ->]. cbn. lia. }
  intros db params.
  assert (H : (processingWeekCashflow db params).1 = Thrown cashbox_missing
              \/ exists report, (processingWeekCashflow db params).1 = Resolved report).
  { destruct (missing (account_id params)) eqn:Hacc.
    - left. unfold processingWeekCashflow. by rewrite Hacc.
    - right. destruct (processingWeekCashflow_resolved db params Hacc)
        as (account & report & _ & -> & _). eauto. }
  split; [done |].
  destruct H as [-> | [report ->]]; split; discriminate.
Qed.

(** The first period of the weekly pipeline is the first week with its start
    replaced. *)
Lemma weekly_first_flow periods result weekly dateFrom p0 rest :
  periods = p0 :: rest ->
  exists first more,
    groupingIncomeExpenseByPeriod
      (groupByPeriod (set_first_start dateFrom periods) result weekly)
    = first :: more
    /\ start_date (period first) = DateStr dateFrom
    /\ end_date (period first) = end_date p0.
Proof.
  intros ->. rewrite groupByPeriod_map, groupingIncomeExpenseByPeriod_map. cbn.
  eexists _, _. split; [reflexivity |]. done.
Qed.

(** C4. In weekly mode the first period of the result starts at the
    requested [dateFrom] itself, whatever [dateTo] is (so in particular when
    [dateFrom <= dateTo]), and not at the start of the calendar week
    [getWeeks] made for it; it still ends with that week. *)
Theorem weekly_first_start_is_dateFrom :
  forall db params,
    missing (account_id params) = false ->
    exists report first more,
      (processingWeekCashflow db params).1 = Resolved report
      /\ flows report = first :: more
      /\ start_date (period first) = DateStr (format_YMD (dateFrom params))
      /\ (forall d : Day, dateFrom params = DateStr d ->
                          start_date (period first) = dateFrom params)
      /\ end_date (period first)
         = end_date (week_of (format_YMD (dateFrom params))).
Proof.
  intros db params Hacc.
  destruct (processingWeekCashflow_resolved db params Hacc)
    as (account & report & _ & Hrun & Hflows).
  destruct (getWeeks_head (format_YMD (dateFrom params)) (format_YMD (dateTo params)))
    as [rest Hweeks].
  destruct (weekly_first_flow _ (income_expense db account (format_YMD (dateFrom params))
                                   (format_YMD (dateTo params)))
              (weekly params) (format_YMD (dateFrom params)) _ _ Hweeks)
    as (first & more & Hfirst & Hstart & Hend).
  exists report, first, more. rewrite Hrun, Hflows, Hfirst.
  split; [done |]. split; [done |]. split; [done |]. split; [| done].
  intros d Hd. by rewrite Hstart, Hd.
Qed.

(** For the request from Tuesday 2024-03-05 to 2024-03-20 the first week
    starts on 2024-03-05; the week [getWeeks] made starts on Sunday
    2024-03-03. *)
Lemma weekly_first_start_2024_03_05 :
  (exists report first more,
      (processingWeekCashflow db_2024 march_2024).1 = Resolved report
      /\ flows report = first :: more
      /\ start_date (period first) = DateStr (ymd 2024 3 5)
      /\ (forall d : Day, dateFrom march_2024 = DateStr d ->
                          start_date (period first) = dateFrom march_2024)
      /\ end_date (period first) = end_date (week_of (ymd 2024 3 5)))
  /\ start_date (week_of (ymd 2024 3 5)) = DateObj (parse_YMD (ymd 2024 3 3))
  /\ weekday (parse_YMD (ymd 2024 3 5)) = 2.
Proof.
  split; [| split; reflexivity].
  apply (weekly_first_start_is_dateFrom db_2024 march_2024). reflexivity.
Defined.

(** C5. A request without [account_id] makes both pipelines throw the
    [BadRequest] 'Cashbox is missing', an error of status 400, before a
    promise exists and with no query executed, whatever the other parameters
    and the database are. *)
Theorem missing_cashbox_throws_first :
  forall db params,
    missing (account_id params) = true ->
    processingCashflowReport db params = (Thrown cashbox_missing, [])
    /\ processingWeekCashflow db params = (Thrown cashbox_missing, [])
    /\ cashbox_missing = BadRequest "Cashbox is missing" "ERRORS.BAD_REQUEST"
    /\ status cashbox_missing = 400.
Proof.
  intros db params Hacc.
  unfold processingCashflowReport, processingWeekCashflow. by rewrite Hacc.
Qed.

Lemma missing_cashbox_2024 :
  processingCashflowReport db_2024 no_cashbox = (Thrown cashbox_missing, [])
  /\ processingWeekCashflow db_2024 no_cashbox = (Thrown cashbox_missing, [])
  /\ cashbox_missing = BadRequest "Cashbox is missing" "ERRORS.BAD_REQUEST"
  /\ status cashbox_missing = 400.
Proof.
  apply (missing_cashbox_throws_first db_2024 no_cashbox). reflexivity.
Defined.

(** With [dateFrom] after [dateTo] neither pipeline raises an error:
    [getPeriods] selects the periods of January and March, which contain one
    of the two dates, and [getWeeks] makes the week of [dateFrom]; both
    requests resolve. *)
Lemma backwards_dates_resolve :
  format_YMD (dateTo (backwards false)) < format_YMD (dateFrom (backwards false))
  /\ processingCashflowReport db_2024 (backwards false)
     = (Resolved
          {| openningBalance := BalanceObj 100 None;
             flows := [ {| period := month 1 2024 1 31; incomes := []; expenses := [] |};
                        {| period := month 3 2024 3 31; incomes := []; expenses := [] |} ] |},
        [ QPeriods (ymd 2024 3 20) (ymd 2024 1 5);
          QOpeningBalance "3627" (start_date (month 1 2024 1 31));
          QIncomeExpense "3627" (ymd 2024 3 20) (ymd 2024 1 5) ])
  /\ processingWeekCashflow db_2024 (backwards true)
     = (Resolved
          {| openningBalance := BalanceRaw 100;
             flows := [ {| period := {| id := None; week := Some 1;
                                        start_date := DateStr (ymd 2024 3 20);
                                        end_date := end_date (week_of (ymd 2024 3 20)) |};
                           incomes := []; expenses := [] |} ] |},
        [ QOpeningBalance "3627" (DateStr (ymd 2024 3 20));
          QIncomeExpense "3627" (ymd 2024 3 20) (ymd 2024 1 5) ]).
Proof.
  split; [reflexivity |]. split; vm_compute; reflexivity.
Qed.

(** C3, as the code has it. For a request that names its cashbox,
    [processingCashflowReport] is rejected with the [BadRequest] of code
    [ERRORS.BAD_DATE_INTERVAL] exactly when [getPeriods] selects no period:
    then the query of the periods is the only one executed and no result is
    returned; when a period is selected the request resolves. *)
Theorem no_period_is_bad_date_interval :
  forall db params,
    missing (account_id params) = false ->
    let from := format_YMD (dateFrom params) in
    let to := format_YMD (dateTo params) in
    let periods := filter (fun p => getPeriods_where from to p = true) (period_table db) in
    (periods = [] ->
     processingCashflowReport db params = (Rejected bad_date_interval, [QPeriods from to])
     /\ bad_date_interval
        = BadRequest "Periods not found due to a bad date interval" "ERRORS.BAD_DATE_INTERVAL"
     /\ status bad_date_interval = 400)
    /\ (periods <> [] ->
        exists report, (processingCashflowReport db params).1 = Resolved report).
Proof.
  intros db params Hacc from to periods.
  destruct (processingCashflowReport_periods db params Hacc) as (account & _ & H).
  fold from to periods in H. split.
  - intros Hnil. rewrite Hnil in H. done.
  - intros Hcons. destruct periods as [| p0 rest]; [done |].
    destruct H as (report & -> & _). eauto.
Qed.

Lemma no_period_2024 :
  processingCashflowReport db_no_period march_2024
  = (Rejected bad_date_interval, [QPeriods (ymd 2024 3 5) (ymd 2024 3 20)])
  /\ bad_date_interval
     = BadRequest "Periods not found due to a bad date interval" "ERRORS.BAD_DATE_INTERVAL"
  /\ status bad_date_interval = 400.
Proof.
  apply (no_period_is_bad_date_interval db_no_period march_2024); reflexivity.
Defined.

(** ** Classification and grouping *)

(** C7. [groupingIncomeExpenseByPeriod] makes one entry for each bucket, in
    order and for the same period; its incomes are exactly the postings of
    the bucket with [debit_equiv > 0] and its expenses exactly those with
    [credit_equiv > 0]. The two tests are independent: a posting with both
    amounts positive is in both lists. *)
Theorem incomes_and_expenses_by_period :
  forall periodicFlows : list PeriodicFlow,
    Forall2
      (fun pf flow =>
         period flow = pf_period pf
         /\ (forall posting,
               posting ∈ incomes flow
               <-> posting ∈ pf_flows pf /\ debit_equiv posting > 0)
         /\ (forall posting,
               posting ∈ expenses flow
               <-> posting ∈ pf_flows pf /\ credit_equiv posting > 0)
         /\ (forall posting,
               posting ∈ pf_flows pf ->
               debit_equiv posting > 0 -> credit_equiv posting > 0 ->
               posting ∈ incomes flow /\ posting ∈ expenses flow))
      periodicFlows (groupingIncomeExpenseByPeriod periodicFlows).
Proof.
  intros periodicFlows. rewrite groupingIncomeExpenseByPeriod_map.
  induction periodicFlows as [| pf rest IH]; cbn; constructor; [| exact IH].
  cbn. split; [done |].
  split; [intros posting; rewrite list_elem_of_filter; tauto |].
  split; [intros posting; rewrite list_elem_of_filter; tauto |].
  intros posting Hin Hd Hc. rewrite !list_elem_of_filter. tauto.
Qed.

(** C8. [groupByPeriod] makes one bucket for each period, in order; a posting
    is in the bucket of a period exactly when it is one of the postings and,
    in calendar mode, its [period_id] is the [id] of the period or, in weekly
    mode, its [trans_date] is between the [start_date] and the [end_date] of
    the period, both included. A posting that matches no period is in no
    bucket. *)
Theorem buckets_by_period :
  forall (periods : list Period) (flows : list Posting) (weekly : bool),
    Forall2
      (fun p bucket =>
         pf_period bucket = p
         /\ forall f, f ∈ pf_flows bucket <-> f ∈ flows /\ in_period weekly p f)
      periods (groupByPeriod periods flows weekly)
    /\ forall f,
         (forall p, p ∈ periods -> ~ in_period weekly p f) ->
         forall bucket, bucket ∈ groupByPeriod periods flows weekly ->
                        f ∉ pf_flows bucket.
Proof.
  intros periods flows weekly. rewrite groupByPeriod_map. split.
  - induction periods as [| p rest IH]; cbn; constructor; [| exact IH].
    cbn. split; [done |]. intros f. rewrite list_elem_of_filter. tauto.
  - intros f Hnone bucket Hbucket Hf.
    apply list_elem_of_fmap in Hbucket as (p & -> & Hp). cbn in Hf.
    apply list_elem_of_filter in Hf as [Hf _]. by apply (Hnone p).
Qed.

(** ** The first period *)

(** C6. [isFirstPeriod] compares the period with the first entry of the list
    of period starts. When that entry is a first of January, the period is a
    first period exactly when it is a first of January, of any year;
    otherwise exactly when it has the day of the month, the month and the
    year of that entry, which is to say when it is that entry. *)
Theorem isFirstPeriod_spec :
  forall (session : Session) (reference : Day) (rest : list Day) (period : Day),
    periodStartArray session = reference :: rest ->
    (getDate reference = 1 /\ getMonth reference = 0 ->
     (isFirstPeriod session period = true
      <-> getDate period = 1 /\ getMonth period = 0))
    /\ (~ (getDate reference = 1 /\ getMonth reference = 0) ->
        (isFirstPeriod session period = true
         <-> getDate period = getDate reference
             /\ getMonth period = getMonth reference
             /\ getYear period = getYear reference)
        /\ (isFirstPeriod session period = true <-> period = reference)).
Proof.
  intros session reference rest period Harr.
  unfold isFirstPeriod. rewrite Harr. cbn [lookup list_lookup].
  split.
  - intros [Hd Hm]. rewrite Hd, Hm. cbn [Z.eqb Pos.eqb andb].
    rewrite andb_true_iff, !Z.eqb_eq. done.
  - intros Hnot.
    destruct ((getDate reference =? 1) && (getMonth reference =? 0)) eqn:Hjan.
    + apply andb_true_iff in Hjan. rewrite !Z.eqb_eq in Hjan. done.
    + rewrite !andb_true_iff, !Z.eqb_eq. split; [tauto |]. split.
      * intros [[Hd Hm] Hy]. by apply same_calendar_day.
      * by intros ->.
Qed.

(** With the first of January 2016 as reference, the first of January 2017
    is a first period. *)
Lemma isFirstPeriod_2017 :
  isFirstPeriod session_2016 (ymd 2017 1 1) = true
  <-> getDate (ymd 2017 1 1) = 1 /\ getMonth (ymd 2017 1 1) = 0.
Proof.
  apply (isFirstPeriod_spec session_2016 (ymd 2016 1 1) (tail starts_2016) (ymd 2017 1 1));
    [reflexivity | split; reflexivity].
Defined.

(** ** The matrix by service *)

(** [indexOf] finds the first place of an element that occurs. *)
Lemma indexOf_elem_of {A} `{EqDecision A} (arr : list A) (x : A) :
  x ∈ arr ->
  exists k : nat,
    indexOf arr x = Z.of_nat k
    /\ arr !! k = Some x
    /\ forall j : nat, (j < k)%nat -> arr !! j <> Some x.
Proof.
  induction arr as [| y rest IH]; intros Hin; [by apply elem_of_nil in Hin |].
  cbn [indexOf]. destruct (decide (y = x)) as [-> | Hne].
  - exists 0%nat. split; [done |]. split; [done |]. intros j Hj. lia.
  - apply elem_of_cons in Hin as [-> | Hin]; [done |].
    destruct (IH Hin) as (k & Hk & Hat & Hfirst). exists (S k).
    rewrite Hk. destruct (decide _); [lia |].
    split; [lia |]. split; [done |].
    intros [| j] Hj; cbn; [congruence | apply Hfirst; lia].
Qed.

(** [indexOf] is -1 for an element that does not occur. *)
Lemma indexOf_not_elem_of {A} `{EqDecision A} (arr : list A) (x : A) :
  x ∉ arr -> indexOf arr x = -1.
Proof.
  induction arr as [| y rest IH]; intros Hin; [done |].
  apply not_elem_of_cons in Hin as [Hne Hin]. cbn [indexOf].
  destruct (decide (y = x)); [done |]. rewrite (IH Hin). by destruct (decide _).
Qed.

(** A write inside the array replaces the element. *)
Lemma set_index_inside (i : nat) (x : Cell) (line : list Cell) :
  (i < length line)%nat -> set_index (Z.of_nat i) x line = <[ i := x ]> line.
Proof.
  intros Hi. unfold set_index. destruct (decide _); [lia |].
  rewrite Nat2Z.id. by destruct (decide _).
Qed.

(** The line of a row whose service is the [k]th of [services]. *)
Lemma matrix_line_at services row (k : nat) :
  indexOf services (name row) = Z.of_nat k ->
  (k < length services)%nat ->
  matrix_line services row
  = [ Text (reference row); Text (display_name row) ]
      ++ replicate k Null
      ++ [ Number (cashAmount row) ]
      ++ replicate (length services - k - 1) Null
      ++ [ Number (cumsum row) ].
Proof.
  intros Hidx Hk. unfold matrix_line. rewrite Hidx.
  replace (Z.to_nat (Z.of_nat (length services) + 3))
    with (2 + (k + (1 + ((length services - k - 1) + 1))))%nat by lia.
  replace (Z.of_nat k + 2) with (Z.of_nat (2 + k)) by lia.
  replace (Z.of_nat (length services) + 2)
    with (Z.of_nat (2 + (k + (1 + (length services - k - 1))))) by lia.
  change 0 with (Z.of_nat 0). change 1 with (Z.of_nat 1).
  rewrite (set_index_inside 0) by (rewrite length_replicate; lia).
  rewrite (set_index_inside 1) by (rewrite !length_insert, length_replicate; lia).
  rewrite (set_index_inside (2 + k))
    by (rewrite !length_insert, length_replicate; lia).
  rewrite set_index_inside by (rewrite !length_insert, length_replicate; lia).
  rewrite !replicate_add. cbn [replicate app].
  cbn [insert list_insert Nat.add].
  do 2 f_equal.
  rewrite (insert_app_r_alt (replicate k Null)) by (rewrite length_replicate; lia).
  rewrite length_replicate, Nat.sub_diag. cbn [insert list_insert].
  rewrite (insert_app_r_alt (replicate k Null)) by (rewrite length_replicate; lia).
  rewrite length_replicate. f_equal.
  replace (k + S (length services - k - 1) - k)%nat
    with (S (length services - k - 1)) by lia.
  cbn [insert list_insert]. f_equal.
  rewrite (insert_app_r_alt (replicate _ Null)) by (rewrite length_replicate; lia).
  by rewrite length_replicate, Nat.sub_diag.
Qed.

(** C9. For a row of the query whose service name is in the list of service
    names, the line of the matrix has the reference in column 0, the name of
    the patient in column 1, [cashAmount] in the column of the row's service
    (two places after the first place of the name in the list), [cumsum] in
    the last column and [null] in every other cell. *)
Theorem matrix_line_of_known_service :
  forall (services : list string) (rows : list ServiceRow) (i : nat)
         (row : ServiceRow),
    rows !! i = Some row ->
    name row ∈ services ->
    exists k : nat,
      services !! k = Some (name row)
      /\ (forall j : nat, (j < k)%nat -> services !! j <> Some (name row))
      /\ matrix services rows !! i
         = Some ([ Text (reference row); Text (display_name row) ]
                   ++ replicate k Null
                   ++ [ Number (cashAmount row) ]
                   ++ replicate (length services - k - 1) Null
                   ++ [ Number (cumsum row) ]).
Proof.
  intros services rows i row Hrow Hin.
  destruct (indexOf_elem_of services (name row) Hin) as (k & Hidx & Hat & Hfirst).
  exists k. split; [done |]. split; [done |].
  unfold matrix. change (map ?f ?l) with (f <$> l).
  rewrite list_lookup_fmap, Hrow. cbn. f_equal.
  apply matrix_line_at; [done |]. by apply lookup_lt_Some in Hat.
Qed.

Lemma matrix_line_pharmacy :
  exists k : nat,
    [ "Administration"; "Pharmacy" ] !! k = Some (name payment)
    /\ (forall j : nat, (j < k)%nat ->
                        [ "Administration"; "Pharmacy" ] !! j <> Some (name payment))
    /\ matrix [ "Administration"; "Pharmacy" ] [ payment ] !! 0%nat
       = Some ([ Text (reference payment); Text (display_name payment) ]
                 ++ replicate k Null
                 ++ [ Number (cashAmount payment) ]
                 ++ replicate (length [ "Administration"; "Pharmacy" ] - k - 1) Null
                 ++ [ Number (cumsum payment) ]).
Proof.
  apply (matrix_line_of_known_service [ "Administration"; "Pharmacy" ] [ payment ]
           0%nat payment).
  - reflexivity.
  - apply elem_of_cons. right. apply elem_of_cons. left. reflexivity.
Defined.

(** A row whose service is not in the list: [indexOf] is -1 and the cash
    amount lands in column 1, over the name of the patient. *)
Example matrix_line_unknown_service :
  matrix_line [ "Administration"; "Laboratory" ] payment
  = [ Text "CP.TPA.1"; Number 25; Null; Null; Number 125 ].
Proof. reflexivity. Qed.

(** ** The summation lists of a period *)

(** Two receipts of one origin and a deposit of another: one entry for each
    label, the receipts added up. *)
Example summation_of_three_incomes :
  summationIncome
    (groupingResult
       [ posting "TRANS1" (ymd 2024 1 10) 1 500 0 2 "CASH_PAYMENT";
         posting "TRANS2" (ymd 2024 1 11) 1 300 0 2 "CASH_PAYMENT";
         posting "TRANS3" (ymd 2024 1 12) 1 50 0 5 "CAUTION" ]
       [] (ymd 2024 1 1) initialization) !! ymd 2024 1 1
  = Some [ {| transfer_type := "CASH_PAYMENT"; entry_currency_id := 2; value := 800 |};
           {| transfer_type := "CAUTION"; entry_currency_id := 2; value := 50 |} ].
Proof. vm_compute. reflexivity. Qed.

(** The [reduce] of [groupingResult] computes that total. *)
Lemma reduce_total amount origin postings (init : Z) :
  foldl (fun a b => if decide (origin_id b = origin) then amount b + a else a)
        init postings
  = total_by_origin amount origin postings + init.
Proof.
  unfold total_by_origin. revert init.
  induction postings as [| b rest IH]; intros init; [done |].
  rewrite filter_cons. cbn [foldl]. rewrite IH.
  destruct (decide (origin_id b = origin)); cbn; lia.
Qed.

Lemma pushed_entries_map amount postings :
  pushed_entries amount postings
  = entry_of amount postings <$> filter (fun item => origin_id item ≠ 0) postings.
Proof.
  unfold pushed_entries.
  assert (H : forall l init,
             foldl (fun summation item =>
                      if decide (origin_id item ≠ 0) then
                        summation ++ [ {| transfer_type := transactionType item;
                                          entry_currency_id := currency_id item;
                                          value := foldl (fun a b =>
                                                     if decide (origin_id b = origin_id item)
                                                     then amount b + a else a) 0 postings |} ]
                      else summation) init l
             = init ++ (entry_of amount postings
                          <$> filter (fun item => origin_id item ≠ 0) l)).
  { induction l as [| item rest IH]; intros init.
    - cbn. by rewrite app_nil_r.
    - rewrite filter_cons. cbn [foldl]. rewrite IH.
      destruct (decide (origin_id item ≠ 0)); [| done].
      rewrite reduce_total, Z.add_0_r, fmap_cons, <- app_assoc. done. }
  by rewrite H.
Qed.

(** The state of the filter that removes duplicates: the cache holds the
    labels of the elements kept so far. *)
Lemma remove_duplicates_step (entries : list Entry) :
  forall (cache : gset string) (kept : list Entry),
    (forall lab, lab ∈ cache <-> lab ∈ (transfer_type <$> kept)) ->
    NoDup (transfer_type <$> kept) ->
    let final :=
      foldl (fun '(cache, kept) elem =>
               if decide (transfer_type elem ∈ (cache : gset string)
                          \/ transfer_type elem ∈ inherited_names)
               then (cache, kept)
               else ({[ transfer_type elem ]} ∪ cache, kept ++ [elem]))
            (cache, kept) entries in
    NoDup (transfer_type <$> final.2)
    /\ (forall e, e ∈ final.2 ->
                  e ∈ kept \/ (e ∈ entries /\ transfer_type e ∉ inherited_names))
    /\ (forall e, e ∈ kept \/ (e ∈ entries /\ transfer_type e ∉ inherited_names) ->
                  transfer_type e ∈ (transfer_type <$> final.2)).
Proof.
  induction entries as [| elem rest IH]; intros cache kept Hcache Hnodup; cbn.
  - split; [done |]. split; [tauto |].
    intros e [He | [He _]]; [by apply list_elem_of_fmap_2 | by apply elem_of_nil in He].
  - destruct (decide (transfer_type elem ∈ cache \/ transfer_type elem ∈ inherited_names))
      as [Hin | Hout].
    + destruct (IH cache kept Hcache Hnodup) as (Hn & Hsub & Hall).
      split; [done |]. split.
      * intros e He. destruct (Hsub e He) as [Hk | [Hr Hown]]; [tauto |].
        right. split; [by apply elem_of_cons; right | done].
      * intros e [He | [He Hown]]; [apply Hall; tauto |].
        apply elem_of_cons in He as [-> | He]; [| apply Hall; tauto].
        destruct Hin as [Hin | Hin]; [| done].
        apply Hcache in Hin. apply list_elem_of_fmap in Hin as (e' & Heq & He').
        rewrite Heq. apply Hall. tauto.
    + assert (Hnew : transfer_type elem ∉ cache) by tauto.
      assert (Hown : transfer_type elem ∉ inherited_names) by tauto.
      destruct (IH ({[ transfer_type elem ]} ∪ cache) (kept ++ [elem])) as (Hn & Hsub & Hall).
      * intros lab. rewrite fmap_app, elem_of_app, elem_of_union, elem_of_singleton.
        cbn. rewrite list_elem_of_singleton, Hcache. tauto.
      * rewrite fmap_app. apply NoDup_app. split; [done |]. split.
        -- intros lab Hlab. cbn. rewrite list_elem_of_singleton. intros ->.
           by apply Hnew, Hcache.
        -- cbn. apply NoDup_singleton.
      * split; [done |]. split.
        -- intros e He. destruct (Hsub e He) as [Hk | [Hr Hr']].
           ++ apply elem_of_app in Hk as [Hk | Hk]; [tauto |].
              apply list_elem_of_singleton in Hk as ->. right.
              split; [apply elem_of_cons; tauto | done].
           ++ right. split; [apply elem_of_cons; tauto | done].
        -- intros e [He | [He He']]; apply Hall.
           ++ left. apply elem_of_app. tauto.
           ++ apply elem_of_cons in He as [-> | He]; [| tauto].
              left. apply elem_of_app. right. by apply list_elem_of_singleton.
Qed.

Lemma remove_duplicates_spec (entries : list Entry) :
  NoDup (transfer_type <$> remove_duplicates entries)
  /\ (forall e, e ∈ remove_duplicates entries ->
                e ∈ entries /\ transfer_type e ∉ inherited_names)
  /\ (forall e, e ∈ entries -> transfer_type e ∉ inherited_names ->
                transfer_type e ∈ (transfer_type <$> remove_duplicates entries)).
Proof.
  destruct (remove_duplicates_step entries ∅ []) as (Hn & Hsub & Hall).
  - intros lab. cbn. rewrite elem_of_nil. split; [| done].
    intros H. by apply elem_of_empty in H.
  - cbn. apply NoDup_nil_2.
  - split; [exact Hn |]. split.
    + intros e He. destruct (Hsub e He) as [Hk | Hr]; [by apply elem_of_nil in Hk | done].
    + intros e He Hown. apply Hall. tauto.
Qed.

Lemma summation_of_postings amount postings :
  summation_of amount postings (remove_duplicates (pushed_entries amount postings)).
Proof.
  destruct (remove_duplicates_spec (pushed_entries amount postings)) as (Hn & Hsub & Hall).
  split; [exact Hn |]. split.
  - intros e He. apply Hsub in He as [He _]. rewrite pushed_entries_map in He.
    apply list_elem_of_fmap in He as (item & -> & Hitem).
    apply list_elem_of_filter in Hitem as [Horigin Hitem].
    exists item. done.
  - intros item Hitem Horigin. split.
    + intros Hkept. apply list_elem_of_fmap in Hkept as (e & Heq & He).
      rewrite Heq. by apply Hsub.
    + intros Hown.
      apply (Hall (entry_of amount postings item)); [| done].
      rewrite pushed_entries_map. apply list_elem_of_fmap_2.
      apply list_elem_of_filter. done.
Qed.

(** In the pipeline the incomes of a period are its postings with
    [debit_equiv > 0]: when no amount is negative, the total of an origin
    over the incomes is its total over all the postings of the period. *)
Lemma total_by_origin_incomes (postings : list Posting) (origin : Z) :
  (forall b, b ∈ postings -> 0 <= debit_equiv b) ->
  total_by_origin debit_equiv origin
    (filter (fun posting => debit_equiv posting > 0) postings)
  = total_by_origin debit_equiv origin postings.
Proof.
  unfold total_by_origin.
  induction postings as [| b rest IH]; intros Hpos; [done |].
  assert (Hrest : forall b', b' ∈ rest -> 0 <= debit_equiv b')
    by (intros b' Hb'; apply Hpos, elem_of_cons; by right).
  assert (Hb : 0 <= debit_equiv b) by (apply Hpos, elem_of_cons; by left).
  rewrite (filter_cons (fun posting => debit_equiv posting > 0)).
  rewrite (filter_cons (fun b0 => origin_id b0 = origin) b rest).
  destruct (decide (debit_equiv b > 0)) as [Hgt | Hle].
  - rewrite filter_cons. destruct (decide (origin_id b = origin)); cbn; rewrite IH; done.
  - rewrite IH by done. destruct (decide (origin_id b = origin)); cbn; lia.
Qed.

(** C2. After [groupingResult] has processed a period, the summation lists
    of that period hold each [transfer_type] at most once, and every entry
    kept comes from a posting with an origin: it has the posting's
    transaction type and currency, and its value is the total of
    [debit_equiv] (incomes) or [credit_equiv] (expenses) over all the
    postings of the list that share the origin of that posting. The
    transaction type of a posting with an origin has an entry exactly when it
    is not the name of a property that the cache object inherits. *)
Theorem groupingResult_summation :
  forall (incomes expenses : list Posting) (period : Day) (session : Session),
    exists summation_in summation_out,
      summationIncome (groupingResult incomes expenses period session) !! period
      = Some summation_in
      /\ summationExpense (groupingResult incomes expenses period session) !! period
         = Some summation_out
      /\ summation_of debit_equiv incomes summation_in
      /\ summation_of credit_equiv expenses summation_out.
Proof.
  intros incomes expenses period session.
  exists (remove_duplicates (pushed_entries debit_equiv incomes)),
         (remove_duplicates (pushed_entries credit_equiv expenses)).
  cbn. rewrite !lookup_insert_eq.
  split; [done |]. split; [done |].
  split; apply summation_of_postings.
Qed.

(** ** The running balance *)

Lemma isFirstPeriod_array s s' p :
  periodStartArray s = periodStartArray s' -> isFirstPeriod s p = isFirstPeriod s' p.
Proof. intros H. unfold isFirstPeriod. by rewrite H. Qed.

Lemma previousPeriod_array s s' p :
  periodStartArray s = periodStartArray s' -> previousPeriod s p = previousPeriod s' p.
Proof. intros H. unfold previousPeriod. by rewrite H. Qed.

(** The first entry of the list of period starts is a first period. *)
Lemma isFirstPeriod_head s first rest :
  periodStartArray s = first :: rest -> isFirstPeriod s first = true.
Proof.
  intros H. unfold isFirstPeriod. rewrite H. cbn [lookup list_lookup].
  destruct (_ && _) eqn:Hjan; [done |].
  by rewrite !Z.eqb_refl.
Qed.

(** A period that is not a first period has a previous period: the entry
    before its first place in the list. *)
Lemma previousPeriod_before s p (k : nat) :
  periodStartArray s !! k = Some p ->
  (forall j : nat, (j < k)%nat -> periodStartArray s !! j <> Some p) ->
  isFirstPeriod s p = false ->
  exists (q : Day) (i : nat),
    k = S i /\ periodStartArray s !! i = Some q /\ q ≠ p
    /\ previousPeriod s p = Some q.
Proof.
  intros Hat Hfirst Hnot.
  assert (Hin : p ∈ periodStartArray s) by (apply list_elem_of_lookup; eauto).
  destruct (indexOf_elem_of _ _ Hin) as (k' & Hidx & Hat' & Hfirst').
  assert (k' = k) as ->.
  { destruct (Nat.lt_trichotomy k' k) as [Hlt | [-> | Hgt]]; [| done |].
    - by destruct (Hfirst k' Hlt). - by destruct (Hfirst' k Hgt). }
  destruct k as [| i].
  - destruct (periodStartArray s) as [| first rest] eqn:Harr; [done |].
    cbn in Hat. injection Hat as ->.
    by rewrite (isFirstPeriod_head s p rest Harr) in Hnot.
  - destruct (lookup_lt_is_Some_2 (periodStartArray s) i) as [q Hq].
    { apply lookup_lt_Some in Hat. lia. }
    exists q, i. split; [done |]. split; [done |]. split.
    + intros ->. by apply (Hfirst i); [lia |].
    + unfold previousPeriod, at_index. rewrite Hidx.
      destruct (decide (Z.of_nat (S i) ≠ 0)); [| lia].
      destruct (decide _); [lia |].
      by replace (Z.to_nat (Z.of_nat (S i) - 1)) with i by lia.
Qed.

(** The first place of an element of a list. *)
Lemma first_place {A} `{EqDecision A} (l : list A) (x : A) :
  x ∈ l ->
  exists k : nat, l !! k = Some x /\ forall j : nat, (j < k)%nat -> l !! j <> Some x.
Proof.
  intros Hin. destruct (indexOf_elem_of l x Hin) as (k & _ & Hat & Hfirst). eauto.
Qed.

Section RunningBalance.

(** The list of period starts, the opening balance before the range and
    the summation lists, which [summarization] reads and does not change. *)
Variable arr : list Day.
Variable ob : Z.
Variable SI SE : gmap Day (list Entry).

Definition static (s : Session) : Prop :=
  periodStartArray s = arr
  /\ session_openningBalance s = Some ob
  /\ summationIncome s = SI
  /\ summationExpense s = SE.

(** What [summarization] has recorded for a period [p], the periods
    [done] having been summarized. *)
Definition recorded (done : list Day) (s : Session) (p : Day) : Prop :=
  exists o b : Z,
    periodicOpenningBalance s !! p = Some (Some o)
    /\ periodicBalance s !! p = Some (Some b)
    /\ sum_incomes s !! p = Some (entry_sum (default [] (SI !! p)))
    /\ sum_expense s !! p = Some (entry_sum (default [] (SE !! p)))
    /\ b = o + entry_sum (default [] (SI !! p)) - entry_sum (default [] (SE !! p))
    /\ (isFirstPeriod s p = true -> o = ob)
    /\ (isFirstPeriod s p = false ->
        exists q, previousPeriod s p = Some q /\ q ∈ done /\ q ≠ p
                  /\ periodicBalance s !! q = Some (Some o)).

Definition summarized (done : list Day) (s : Session) : Prop :=
  static s /\ forall p, p ∈ done -> recorded done s p.

Lemma summarization_static p s : static s -> static (summarization p s).
Proof. intros (H1 & H2 & H3 & H4). done. Qed.

(** The balance [summarization] writes for [p] and the opening balance it
    then reads. *)
Lemma summarization_writes p s :
  static s ->
  let i := entry_sum (default [] (SI !! p)) in
  let e := entry_sum (default [] (SE !! p)) in
  let b := if isFirstPeriod s p
           then Some (ob + i - e)
           else num_sub (num_add (balance_at (periodicBalance s) (previousPeriod s p))
                                 (Some i)) (Some e) in
  periodicBalance (summarization p s) = <[ p := b ]> (periodicBalance s)
  /\ periodicOpenningBalance (summarization p s)
     = <[ p := if isFirstPeriod s p then Some ob
               else balance_at (<[ p := b ]> (periodicBalance s)) (previousPeriod s p) ]>
         (periodicOpenningBalance s)
  /\ sum_incomes (summarization p s) = <[ p := i ]> (sum_incomes s)
  /\ sum_expense (summarization p s) = <[ p := e ]> (sum_expense s).
Proof.
  intros (H1 & H2 & H3 & H4). cbn. unfold summarization; cbn.
  rewrite H2, H3, H4. unfold entry_sum.
  destruct (isFirstPeriod s p); done.
Qed.

(** One more period summarized. *)
Lemma summarized_step done p todo s :
  arr = done ++ p :: todo ->
  summarized done s ->
  summarized (done ++ [p]) (summarization p s).
Proof.
  intros Harr [Hstatic Hdone].
  pose proof (summarization_static p s Hstatic) as Hstatic'.
  pose proof (summarization_writes p s Hstatic) as (HB & HO & HI & HE).
  assert (Hs : periodStartArray (summarization p s) = periodStartArray s) by done.
  assert (Hparr : periodStartArray s = arr) by apply Hstatic.
  set (i := entry_sum (default [] (SI !! p))) in *.
  set (e := entry_sum (default [] (SE !! p))) in *.
  (* what is computed for p in the state s *)
  assert (Hnew : exists o b : Z,
             (if isFirstPeriod s p then Some (ob + i - e)
              else num_sub (num_add (balance_at (periodicBalance s) (previousPeriod s p))
                                    (Some i)) (Some e)) = Some b
             /\ b = o + i - e
             /\ (isFirstPeriod s p = true -> o = ob)
             /\ (isFirstPeriod s p = false ->
                 exists q, previousPeriod s p = Some q /\ q ∈ done /\ q ≠ p
                           /\ periodicBalance s !! q = Some (Some o))).
  { destruct (isFirstPeriod s p) eqn:Hfirst.
    - exists ob, (ob + i - e). done.
    - assert (Hin : p ∈ arr).
      { rewrite Harr. apply elem_of_app. right. apply elem_of_cons. by left. }
      destruct (first_place arr p Hin) as (k & Hat & Hk).
      rewrite <- Hparr in Hat, Hk.
      destruct (previousPeriod_before s p k Hat Hk Hfirst)
        as (q & j & -> & Hq & Hne & Hprev).
      assert (Hj : (j < length done)%nat).
      { destruct (decide (j < length done)%nat) as [| Hge]; [done |].
        exfalso. apply (Hk (length done)); [lia |].
        rewrite Hparr, Harr. by rewrite list_lookup_middle. }
      assert (Hqdone : q ∈ done).
      { rewrite Hparr, Harr, lookup_app_l in Hq by done.
        apply list_elem_of_lookup. eauto. }
      destruct (Hdone q Hqdone) as (oq & bq & _ & HBq & _).
      exists bq, (bq + i - e). rewrite Hprev. cbn. rewrite HBq. cbn.
      split; [done |]. split; [done |]. split; [done |].
      intros _. exists q. done. }
  destruct Hnew as (o & b & Hb & Hbo & Ho1 & Ho2).
  rewrite Hb in HB, HO.
  assert (Hopen : (if isFirstPeriod s p then Some ob
                   else balance_at (<[ p := Some b ]> (periodicBalance s))
                                   (previousPeriod s p)) = Some o).
  { destruct (isFirstPeriod s p) eqn:Hfirst; [by rewrite Ho1 |].
    destruct (Ho2 eq_refl) as (q & -> & _ & Hne & HBq).
    cbn. by rewrite lookup_insert_ne, HBq. }
  rewrite Hopen in HO.
  split; [exact Hstatic' |].
  destruct (decide (p ∈ done)) as [Hold | Hnew].
  - (* p is summarized again: nothing changes *)
    destruct (Hdone p Hold) as (o' & b' & HOp & HBp & HIp & HEp & Hb' & Ho1' & Ho2').
    assert (o' = o) as ->.
    { destruct (isFirstPeriod s p) eqn:Hfirst; [by rewrite Ho1, Ho1' |].
      destruct (Ho2 eq_refl) as (q & Hq & _ & _ & HBq).
      destruct (Ho2' eq_refl) as (q' & Hq' & _ & _ & HBq'). congruence. }
    assert (b' = b) as -> by (fold i e in Hb'; lia).
    rewrite insert_id in HB by done. rewrite insert_id in HO by done.
    rewrite insert_id in HI by done. rewrite insert_id in HE by done.
    intros r Hr. assert (Hrdone : r ∈ done).
    { apply elem_of_app in Hr as [Hr | Hr]; [done |].
      by apply list_elem_of_singleton in Hr as ->. }
    destruct (Hdone r Hrdone) as (o_r & b_r & H1 & H2 & H3 & H4 & H5 & H6 & H7).
    exists o_r, b_r. rewrite HB, HO, HI, HE.
    rewrite (isFirstPeriod_array _ s r Hs), (previousPeriod_array _ s r Hs).
    repeat (split; [done |]).
    intros Hf. destruct (H7 Hf) as (q & Hq1 & Hq2 & Hq3 & Hq4). exists q.
    split; [done |]. split; [apply elem_of_app; by left |]. done.
  - (* p is summarized for the first time *)
    intros r Hr. destruct (decide (r = p)) as [-> | Hne].
    + exists o, b. rewrite HB, HO, HI, HE, !lookup_insert_eq.
      rewrite (isFirstPeriod_array _ s p Hs), (previousPeriod_array _ s p Hs).
      repeat (split; [done |]).
      intros Hf. destruct (Ho2 Hf) as (q & Hq1 & Hq2 & Hq3 & Hq4). exists q.
      rewrite lookup_insert_ne by done.
      split; [done |]. split; [apply elem_of_app; by left |]. done.
    + assert (Hrdone : r ∈ done).
      { apply elem_of_app in Hr as [Hr | Hr]; [done |].
        by apply list_elem_of_singleton in Hr. }
      destruct (Hdone r Hrdone) as (o_r & b_r & H1 & H2 & H3 & H4 & H5 & H6 & H7).
      exists o_r, b_r. rewrite HB, HO, HI, HE, !lookup_insert_ne by done.
      rewrite (isFirstPeriod_array _ s r Hs), (previousPeriod_array _ s r Hs).
      repeat (split; [done |]).
      intros Hf. destruct (H7 Hf) as (q & Hq1 & Hq2 & Hq3 & Hq4). exists q.
      rewrite lookup_insert_ne by (intros ->; done).
      split; [done |]. split; [apply elem_of_app; by left |]. done.
Qed.

(** All the periods summarized, in order. *)
Lemma summarized_all todo : forall done s,
  arr = done ++ todo ->
  summarized done s ->
  summarized arr (foldl (fun s p => summarization p s) s todo).
Proof.
  induction todo as [| p todo IH]; intros done s Harr Hinv; cbn.
  - by rewrite Harr, app_nil_r.
  - apply (IH (done ++ [p])); [by rewrite <- app_assoc |].
    by apply (summarized_step done p todo).
Qed.

End RunningBalance.

(** [groupingResult] leaves the opening balance alone. *)
Lemma grouping_openningBalance (flows : list Flow) (s : Session) :
  session_openningBalance
    (foldl (fun session flow =>
              groupingResult (incomes flow) (expenses flow) (period_key flow) session)
           s flows)
  = session_openningBalance s.
Proof.
  revert s. induction flows as [| flow rest IH]; intros s; cbn; [done |].
  by rewrite IH.
Qed.

Lemma foldl_summarization (flows : list Flow) (s : Session) :
  foldl (fun session flow => summarization (period_key flow) session) s flows
  = foldl (fun s p => summarization p s) s (map period_key flows).
Proof.
  revert s. induction flows as [| flow rest IH]; intros s; cbn; [done |].
  by rewrite IH.
Qed.

(** The session [reporting] ends with has every period summarized. *)
Lemma reporting_summarized rows ob :
  balance_of (openningBalance rows) = Some ob ->
  summarized (map period_key (flows rows)) ob
             (summationIncome (reporting rows)) (summationExpense (reporting rows))
             (map period_key (flows rows)) (reporting rows).
Proof.
  intros Hob. unfold reporting. rewrite foldl_summarization.
  match goal with
  | |- context [foldl _ ?s0 (map period_key (flows rows))] => set (s := s0)
  end.
  assert (Hkeep : forall todo s1,
             summationIncome (foldl (fun s p => summarization p s) s1 todo)
             = summationIncome s1
             /\ summationExpense (foldl (fun s p => summarization p s) s1 todo)
                = summationExpense s1).
  { induction todo as [| p todo IH]; intros s1; cbn; [done |].
    destruct (IH (summarization p s1)) as [-> ->]. done. }
  destruct (Hkeep (map period_key (flows rows)) s) as [-> ->].
  apply (summarized_all _ _ _ _ (map period_key (flows rows)) []); [done |].
  split.
  - split; [done |]. split; [| done]. cbn.
    by rewrite grouping_openningBalance.
  - intros p Hp. by apply elem_of_nil in Hp.
Qed.

(** C1, as the code has it. When the opening balance before the range is a
    number, [reporting] records for every period an opening balance, a sum of
    incomes, a sum of expenses and a balance, with
    balance = opening balance + incomes - expenses. A period that
    [isFirstPeriod] takes for a first period opens with the balance before
    the range; the first period of the list is one. A period that is not
    taken for a first period, and whose start did not occur earlier in the
    list, opens with the balance of the period just before it. *)
Theorem running_balance_by_period :
  forall (rows : Report) (ob : Z),
    balance_of (openningBalance rows) = Some ob ->
    periodStartArray (reporting rows) = map period_key (flows rows)
    /\ (forall p,
          p ∈ periodStartArray (reporting rows) ->
          exists o b i e : Z,
            periodicOpenningBalance (reporting rows) !! p = Some (Some o)
            /\ periodicBalance (reporting rows) !! p = Some (Some b)
            /\ sum_incomes (reporting rows) !! p = Some i
            /\ sum_expense (reporting rows) !! p = Some e
            /\ i = entry_sum (default [] (summationIncome (reporting rows) !! p))
            /\ e = entry_sum (default [] (summationExpense (reporting rows) !! p))
            /\ b = o + i - e
            /\ (isFirstPeriod (reporting rows) p = true -> o = ob))
    /\ (forall (k : nat) (q p : Day),
          periodStartArray (reporting rows) !! k = Some q ->
          periodStartArray (reporting rows) !! S k = Some p ->
          (forall j : nat, (j <= k)%nat -> periodStartArray (reporting rows) !! j <> Some p) ->
          isFirstPeriod (reporting rows) p = false ->
          periodicOpenningBalance (reporting rows) !! p
          = periodicBalance (reporting rows) !! q)
    /\ (forall first rest,
          periodStartArray (reporting rows) = first :: rest ->
          periodicOpenningBalance (reporting rows) !! first = Some (Some ob)).
Proof.
  intros rows ob Hob.
  destruct (reporting_summarized rows ob Hob) as [(Harr & _) Hall].
  split; [exact Harr |]. rewrite Harr. split; [| split].
  - intros p Hp.
    destruct (Hall p Hp) as (o & b & HO & HB & HI & HE & Hb & Hfirst & _).
    eexists o, b, _, _. repeat (split; [eassumption || reflexivity |]). done.
  - intros k q p Hq Hp Hk Hnot.
    assert (Hin : p ∈ map period_key (flows rows))
      by (apply list_elem_of_lookup; eauto).
    destruct (Hall p Hin) as (o & b & HO & _ & _ & _ & _ & _ & Hprev).
    destruct (Hprev Hnot) as (q' & Hq' & _ & _ & HBq').
    rewrite <- Harr in Hq, Hp, Hk.
    destruct (previousPeriod_before (reporting rows) p (S k) Hp) as (q'' & j & Hj & Hat & _ & Hq'');
      [intros j Hj; apply Hk; lia | done |].
    injection Hj as <-. rewrite Hq in Hat. injection Hat as <-.
    rewrite Hq' in Hq''. injection Hq'' as ->.
    by rewrite HO, HBq'.
  - intros first rest Hlist.
    assert (Hin : first ∈ map period_key (flows rows))
      by (rewrite Hlist; apply elem_of_cons; by left).
    destruct (Hall first Hin) as (o & b & HO & _ & _ & _ & _ & Hfirst & _).
    rewrite HO, Hfirst; [done |].
    apply (isFirstPeriod_head _ first rest). by rewrite Harr.
Qed.

Lemma running_balance_two_periods :
  periodStartArray (reporting rows_two_periods) = map period_key (flows rows_two_periods)
  /\ (forall p,
        p ∈ periodStartArray (reporting rows_two_periods) ->
        exists o b i e : Z,
          periodicOpenningBalance (reporting rows_two_periods) !! p = Some (Some o)
          /\ periodicBalance (reporting rows_two_periods) !! p = Some (Some b)
          /\ sum_incomes (reporting rows_two_periods) !! p = Some i
          /\ sum_expense (reporting rows_two_periods) !! p = Some e
          /\ i = entry_sum (default [] (summationIncome (reporting rows_two_periods) !! p))
          /\ e = entry_sum (default [] (summationExpense (reporting rows_two_periods) !! p))
          /\ b = o + i - e
          /\ (isFirstPeriod (reporting rows_two_periods) p = true -> o = 100))
  /\ (forall (k : nat) (q p : Day),
        periodStartArray (reporting rows_two_periods) !! k = Some q ->
        periodStartArray (reporting rows_two_periods) !! S k = Some p ->
        (forall j : nat, (j <= k)%nat ->
                         periodStartArray (reporting rows_two_periods) !! j <> Some p) ->
        isFirstPeriod (reporting rows_two_periods) p = false ->
        periodicOpenningBalance (reporting rows_two_periods) !! p
        = periodicBalance (reporting rows_two_periods) !! q)
  /\ (forall first rest,
        periodStartArray (reporting rows_two_periods) = first :: rest ->
        periodicOpenningBalance (reporting rows_two_periods) !! first = Some (Some 100)).
Proof.
  apply (running_balance_by_period rows_two_periods 100). reflexivity.
Defined.

(** The balances of that scenario: January closes with 400, February opens
    with 400 and closes with 300. *)
Example balances_two_periods :
  periodicOpenningBalance (reporting rows_two_periods) !! ymd 2024 1 1 = Some (Some 100)
  /\ periodicBalance (reporting rows_two_periods) !! ymd 2024 1 1 = Some (Some 400)
  /\ periodicOpenningBalance (reporting rows_two_periods) !! ymd 2024 2 1 = Some (Some 400)
  /\ periodicBalance (reporting rows_two_periods) !! ymd 2024 2 1 = Some (Some 300).
Proof. vm_compute. repeat split. Qed.

(** The period of January 2017 comes after that of December 2016, which
    closes with 600; it is taken for a first period, and opens with the 100
    of before the range. *)
Lemma opening_balance_reset_2017 :
  periodStartArray (reporting rows_2016) = starts_2016
  /\ starts_2016 !! 11%nat = Some (ymd 2016 12 1)
  /\ starts_2016 !! 12%nat = Some (ymd 2017 1 1)
  /\ periodicBalance (reporting rows_2016) !! ymd 2016 12 1 = Some (Some 600)
  /\ periodicOpenningBalance (reporting rows_2016) !! ymd 2017 1 1 = Some (Some 100)
  /\ isFirstPeriod (reporting rows_2016) (ymd 2017 1 1) = true.
Proof. vm_compute. repeat split. Qed.

(** * Further properties of the controller *)

(** ** The weeks of getWeeks *)

(** The Sunday on or before a day. *)
Definition sunday (d : Day) : Day := d - (d + 4) mod 7.

(** The week that starts at the instant [s], numbered as [getWeeks] numbers
    every week. *)
Definition week_from (s : Instant) : Period :=
  {| id := None; week := Some 1;
     start_date := DateObj s; end_date := DateObj (s + 7 * msPerDay - 1) |}.

(** How many weeks [getWeeks] makes. *)
Definition weeks_count (dateFrom dateTo : Day) : nat :=
  Z.to_nat (Z.max 1 ((dateTo - sunday dateFrom) / 7 + 1)).

(** The periods of the weekly pipeline. *)
Definition weekly_periods (dateFrom dateTo : Day) : list Period :=
  set_first_start dateFrom (getWeeks dateFrom dateTo).

Lemma sunday_spec d : sunday d <= d < sunday d + 7 /\ (sunday d + 4) mod 7 = 0.
Proof. unfold sunday. Z.div_mod_to_equations. lia. Qed.

Lemma sunday_next d : (d + 4) mod 7 = 0 -> sunday (d + 7) = d + 7 /\ sunday d = d.
Proof. unfold sunday. Z.div_mod_to_equations. lia. Qed.

Lemma startOf_week_sunday t : startOf_week t = parse_YMD (sunday (t / msPerDay)).
Proof. reflexivity. Qed.

Lemma parse_YMD_day d : parse_YMD d / msPerDay = d.
Proof. unfold parse_YMD. by rewrite Z.div_mul. Qed.

Lemma getWeeks_body_sunday first weeks :
  getWeeks_body first weeks
  = (parse_YMD (sunday (first / msPerDay) + 7),
     weeks ++ [ week_from (parse_YMD (sunday (first / msPerDay))) ]).
Proof.
  unfold getWeeks_body, week_from, endOf_week.
  rewrite !startOf_week_sunday, parse_YMD_day.
  destruct (sunday_spec (first / msPerDay)) as [_ Hs].
  destruct (sunday_next _ Hs) as [_ ->].
  unfold add_days, parse_YMD. do 2 f_equal. lia.
Qed.

Lemma weeks_count_step (T S0 : Z) :
  (S0 + 7) * msPerDay <= T * msPerDay ->
  Z.to_nat (Z.max 1 ((T - S0) / 7 + 1))
  = S (Z.to_nat (Z.max 1 ((T - (S0 + 7)) / 7 + 1))).
Proof. unfold msPerDay. intros H. Z.div_mod_to_equations. lia. Qed.

Lemma weeks_count_stop (T S0 : Z) :
  T * msPerDay < (S0 + 7) * msPerDay ->
  Z.to_nat (Z.max 1 ((T - S0) / 7 + 1)) = 1%nat.
Proof. unfold msPerDay. intros H. Z.div_mod_to_equations. lia. Qed.

(** The loop, from any instant: the weeks from the Sunday of [first] on,
    as long as they start on or before [dateTo], and one week at least. *)
Lemma getWeeks_loop_weeks dateTo first weeks :
  getWeeks_loop dateTo first weeks
  = weeks ++ ((fun k : nat =>
                 week_from (parse_YMD (sunday (first / msPerDay) + 7 * Z.of_nat k)))
                <$> seq 0 (Z.to_nat (Z.max 1 ((dateTo - sunday (first / msPerDay)) / 7 + 1)))).
Proof.
  funelim (getWeeks_loop dateTo first weeks).
  - match goal with IH : getWeeks_loop _ _ _ = _ ++ _ |- _ => rewrite IH end.
    pose proof (proj1 (Z.leb_le _ _) Hle) as Hle'.
    rewrite getWeeks_body_sunday in Hle'. rewrite getWeeks_body_sunday.
    cbn [fst snd new_Date] in *. unfold parse_YMD in Hle'.
    rewrite parse_YMD_day.
    destruct (sunday_spec (first / msPerDay)) as [_ Hs].
    destruct (sunday_next _ Hs) as [-> _].
    rewrite (weeks_count_step _ _ Hle').
    cbn [seq fmap list_fmap]. rewrite <- app_assoc. cbn [app].
    change (Z.of_nat 0) with 0. rewrite Z.mul_0_r, Z.add_0_r.
    do 2 f_equal.
    rewrite <- seq_shift. change (map S ?l) with (S <$> l).
    rewrite <- list_fmap_compose. apply list_fmap_ext.
    intros i k _. cbn. do 2 f_equal. lia.
  - pose proof (proj1 (Z.leb_gt _ _) Hgt) as Hgt'.
    rewrite getWeeks_body_sunday in Hgt'. rewrite getWeeks_body_sunday.
    cbn [fst snd new_Date] in *. unfold parse_YMD in Hgt'.
    rewrite (weeks_count_stop _ _ Hgt').
    cbn [seq fmap list_fmap]. change (Z.of_nat 0) with 0.
    by rewrite Z.mul_0_r, Z.add_0_r.
Qed.

Lemma getWeeks_weeks dateFrom dateTo :
  getWeeks dateFrom dateTo
  = (fun k : nat => week_from (parse_YMD (sunday dateFrom + 7 * Z.of_nat k)))
      <$> seq 0 (weeks_count dateFrom dateTo).
Proof.
  unfold getWeeks. rewrite getWeeks_loop_weeks, parse_YMD_day. done.
Qed.

(** The bounds of the [k]th period of the weekly pipeline: the first one
    starts at [dateFrom], the others on their Sunday. *)
Definition weekly_lower (dateFrom : Day) (k : nat) : Instant :=
  match k with
  | O => parse_YMD dateFrom
  | S _ => parse_YMD (sunday dateFrom + 7 * Z.of_nat k)
  end.

Definition weekly_upper (dateFrom : Day) (k : nat) : Instant :=
  parse_YMD (sunday dateFrom + 7 * Z.of_nat k) + 7 * msPerDay - 1.

Lemma weeks_count_pos dateFrom dateTo : (0 < weeks_count dateFrom dateTo)%nat.
Proof. unfold weeks_count. lia. Qed.

Lemma weekly_periods_lookup dateFrom dateTo (k : nat) :
  (k < weeks_count dateFrom dateTo)%nat ->
  exists p,
    weekly_periods dateFrom dateTo !! k = Some p
    /\ id p = None /\ week p = Some 1
    /\ new_Date (start_date p) = weekly_lower dateFrom k
    /\ new_Date (end_date p) = weekly_upper dateFrom k.
Proof.
  intros Hk. unfold weekly_periods. rewrite getWeeks_weeks.
  destruct (weeks_count dateFrom dateTo) as [| n] eqn:Hn; [lia |].
  replace (seq 0 (S n)) with (0%nat :: seq 1 n) by done.
  rewrite fmap_cons. cbn [set_first_start]. destruct k as [| k].
  - eexists. split; [reflexivity |]. cbn. repeat split; reflexivity.
  - match goal with |- context [(_ :: ?l) !! S k] => change ((_ :: l) !! S k) with (l !! k) end.
    rewrite list_lookup_fmap, lookup_seq_lt by lia. cbn [fmap option_fmap option_map].
    eexists. split; [reflexivity |]. repeat split; reflexivity.
Qed.

Lemma weekly_periods_length dateFrom dateTo :
  length (weekly_periods dateFrom dateTo) = weeks_count dateFrom dateTo.
Proof.
  unfold weekly_periods. rewrite getWeeks_weeks.
  pose proof (weeks_count_pos dateFrom dateTo).
  destruct (weeks_count dateFrom dateTo) as [| n]; [lia |].
  replace (seq 0 (S n)) with (0%nat :: seq 1 n) by done.
  rewrite fmap_cons. cbn [set_first_start length].
  by rewrite length_fmap, length_seq.
Qed.

Lemma weekly_periods_Some dateFrom dateTo (k : nat) p :
  weekly_periods dateFrom dateTo !! k = Some p ->
  (k < weeks_count dateFrom dateTo)%nat
  /\ id p = None /\ week p = Some 1
  /\ new_Date (start_date p) = weekly_lower dateFrom k
  /\ new_Date (end_date p) = weekly_upper dateFrom k.
Proof.
  intros Hp.
  assert (Hk : (k < weeks_count dateFrom dateTo)%nat).
  { rewrite <- weekly_periods_length. by apply lookup_lt_Some in Hp. }
  split; [done |].
  destruct (weekly_periods_lookup dateFrom dateTo k Hk) as (p' & Hp' & H).
  rewrite Hp in Hp'. by injection Hp' as <-.
Qed.

(** The bounds of the weekly periods: each ends before the next starts. *)
Lemma weekly_bounds dateFrom (k k' : nat) :
  (k < k')%nat -> weekly_upper dateFrom k < weekly_lower dateFrom k'.
Proof.
  intros Hk. unfold weekly_upper, weekly_lower, parse_YMD, msPerDay.
  destruct k' as [| k']; lia.
Qed.

Lemma weekly_lower_from dateFrom (k : nat) :
  parse_YMD dateFrom <= weekly_lower dateFrom k.
Proof.
  destruct (sunday_spec dateFrom) as [Hs _].
  unfold weekly_lower, parse_YMD, msPerDay. destruct k; lia.
Qed.

(** The weeks [getWeeks] makes: [weeks_count] of them, the [k]th from 00:00
    of the Sunday [7 k] days after the Sunday on or before [dateFrom] to the
    last millisecond of the following Saturday; after the first, a week is
    made only when its Sunday is on or before [dateTo]. The counter [inc] is
    never incremented: every week is numbered 1. *)
Theorem getWeeks_sunday_weeks :
  forall dateFrom dateTo : Day,
    length (getWeeks dateFrom dateTo) = weeks_count dateFrom dateTo
    /\ forall (k : nat) (w : Period),
         getWeeks dateFrom dateTo !! k = Some w ->
         id w = None /\ week w = Some 1
         /\ start_date w = DateObj (parse_YMD (sunday dateFrom + 7 * Z.of_nat k))
         /\ weekday (new_Date (start_date w)) = 0
         /\ new_Date (end_date w) = new_Date (start_date w) + 7 * msPerDay - 1
         /\ ((0 < k)%nat -> sunday dateFrom + 7 * Z.of_nat k <= dateTo).
Proof.
  intros dateFrom dateTo. rewrite getWeeks_weeks, length_fmap, length_seq.
  split; [done |]. intros k w Hw.
  rewrite list_lookup_fmap in Hw.
  destruct (seq 0 (weeks_count dateFrom dateTo) !! k) as [k' |] eqn:Hk; [| done].
  apply lookup_seq in Hk as [-> Hk]. cbn in Hw. injection Hw as <-.
  cbn [id week start_date end_date week_from new_Date Nat.add].
  split; [done |]. split; [done |]. split; [done |].
  destruct (sunday_spec dateFrom) as [Hs Hmod].
  split; [| split; [done |]].
  - unfold weekday. rewrite parse_YMD_day. revert Hmod.
    generalize (sunday dateFrom) (Z.of_nat k). intros a b.
    Z.div_mod_to_equations. lia.
  - intros Hpos. unfold weeks_count in Hk. revert Hk Hs.
    generalize (sunday dateFrom). intros a Hk Hs.
    Z.div_mod_to_equations. lia.
Qed.

(** When [dateTo] is before the Sunday after [dateFrom], and so whenever it
    is before [dateFrom], [getWeeks] makes the week of [dateFrom] and no
    other. *)
Theorem getWeeks_single_week :
  forall dateFrom dateTo : Day,
    dateTo < sunday dateFrom + 7 ->
    getWeeks dateFrom dateTo = [ week_of dateFrom ].
Proof.
  intros dateFrom dateTo Hlt. rewrite getWeeks_weeks.
  assert (Hn : weeks_count dateFrom dateTo = 1%nat).
  { unfold weeks_count. revert Hlt. generalize (sunday dateFrom). intros a Hlt.
    Z.div_mod_to_equations. lia. }
  rewrite Hn. cbn [seq fmap list_fmap]. change (Z.of_nat 0) with 0.
  rewrite Z.mul_0_r, Z.add_0_r. f_equal.
  unfold week_of, week_from, endOf_week.
  rewrite !startOf_week_sunday, !parse_YMD_day.
  destruct (sunday_spec dateFrom) as [_ Hs].
  destruct (sunday_next _ Hs) as [_ ->]. done.
Qed.

Lemma getWeeks_single_week_backwards :
  getWeeks (ymd 2024 3 20) (ymd 2024 1 5) = [ week_of (ymd 2024 3 20) ].
Proof. apply (getWeeks_single_week (ymd 2024 3 20) (ymd 2024 1 5)). reflexivity. Defined.

(** A bucket of the weekly pipeline and the bounds of its period. *)
Lemma weekly_bucket_bounds from to postings (i : nat) b f :
  groupByPeriod (weekly_periods from to) postings true !! i = Some b ->
  f ∈ pf_flows b ->
  (i < weeks_count from to)%nat
  /\ f ∈ postings
  /\ weekly_lower from i <= new_Date (trans_date f) <= weekly_upper from i.
Proof.
  rewrite groupByPeriod_map. change (map ?g ?l) with (g <$> l).
  rewrite list_lookup_fmap. intros Hb Hf.
  destruct (weekly_periods from to !! i) as [p |] eqn:Hp; [| done].
  cbn in Hb. injection Hb as <-. cbn in Hf.
  apply list_elem_of_filter in Hf as [Hin Hf]. unfold in_period in Hin.
  destruct (weekly_periods_Some from to i p Hp) as (Hi & _ & _ & Hlo & Hup).
  rewrite Hlo, Hup in Hin. done.
Qed.

(** In the weekly pipeline, called with a true [weekly], the buckets are
    those of [groupByPeriod] over the weeks with the first start replaced.
    With the clock of the server in UTC, where the midnight Moment gives for
    a day and [new Date] of its ['YYYY-MM-DD'] string are one instant
    ([parse_YMD]): no posting is in two of the buckets; nothing dated before
    00:00 UTC of [dateFrom] is in any; and every posting dated from 00:00
    UTC of [dateFrom] to before 00:00 UTC of the day after [dateTo] is in
    one. *)
Theorem weekly_buckets_partition :
  forall (from to : Day) (postings : list Posting),
    (forall (i j : nat) bi bj f,
        groupByPeriod (weekly_periods from to) postings true !! i = Some bi ->
        groupByPeriod (weekly_periods from to) postings true !! j = Some bj ->
        f ∈ pf_flows bi -> f ∈ pf_flows bj -> i = j)
    /\ (forall (i : nat) b f,
          groupByPeriod (weekly_periods from to) postings true !! i = Some b ->
          f ∈ pf_flows b ->
          parse_YMD from <= new_Date (trans_date f))
    /\ (forall f,
          f ∈ postings ->
          parse_YMD from <= new_Date (trans_date f) < parse_YMD (to + 1) ->
          exists (i : nat) b,
            groupByPeriod (weekly_periods from to) postings true !! i = Some b
            /\ f ∈ pf_flows b)
    /\ (forall db params,
          missing (account_id params) = false ->
          weekly params = true ->
          format_YMD (dateFrom params) = from ->
          format_YMD (dateTo params) = to ->
          exists report account,
            account_id params = Some account
            /\ (processingWeekCashflow db params).1 = Resolved report
            /\ flows report
               = groupingIncomeExpenseByPeriod
                   (groupByPeriod (weekly_periods from to)
                      (income_expense db account from to) true)).
Proof.
  intros from to postings. split; [| split; [| split]].
  - intros i j bi bj f Hbi Hbj Hfi Hfj.
    destruct (weekly_bucket_bounds _ _ _ _ _ _ Hbi Hfi) as (_ & _ & Hi).
    destruct (weekly_bucket_bounds _ _ _ _ _ _ Hbj Hfj) as (_ & _ & Hj).
    destruct (Nat.lt_trichotomy i j) as [Hlt | [-> | Hgt]]; [| done |].
    + pose proof (weekly_bounds from i j Hlt). lia.
    + pose proof (weekly_bounds from j i Hgt). lia.
  - intros i b f Hb Hf.
    destruct (weekly_bucket_bounds _ _ _ _ _ _ Hb Hf) as (_ & _ & Hi).
    pose proof (weekly_lower_from from i). lia.
  - intros f Hf Ht.
    set (t := new_Date (trans_date f)) in *.
    destruct (sunday_spec from) as [Hs _].
    set (q := (t / msPerDay - sunday from) / 7).
    assert (Hday : from <= t / msPerDay <= to).
    { unfold parse_YMD, msPerDay in *. Z.div_mod_to_equations. lia. }
    assert (Hq : 0 <= q /\ sunday from + 7 * q <= t / msPerDay < sunday from + 7 * q + 7).
    { unfold q. Z.div_mod_to_equations. lia. }
    assert (Hcount : (Z.to_nat q < weeks_count from to)%nat).
    { unfold weeks_count. Z.div_mod_to_equations. lia. }
    destruct (weekly_periods_lookup from to (Z.to_nat q) Hcount)
      as (p & Hp & _ & _ & Hlo & Hup).
    exists (Z.to_nat q), {| pf_period := p; pf_flows := filter (in_period true p) postings |}.
    rewrite groupByPeriod_map. change (map ?g ?l) with (g <$> l).
    rewrite list_lookup_fmap, Hp. split; [done |]. cbn.
    apply list_elem_of_filter. split; [| done].
    unfold in_period. rewrite Hlo, Hup. fold t.
    assert (Ht' : t / msPerDay * msPerDay <= t < t / msPerDay * msPerDay + msPerDay).
    { unfold msPerDay. Z.div_mod_to_equations. lia. }
    unfold weekly_upper, weekly_lower, parse_YMD in *.
    destruct (Z.to_nat q) as [| k] eqn:Hk.
    + assert (q = 0) as Hq0 by lia. rewrite Hq0 in Hq.
      change (Z.of_nat 0) with 0. unfold msPerDay in *. lia.
    + assert (Z.of_nat (S k) = q) as -> by lia. unfold msPerDay in *. lia.
  - intros db params Hacc Hweekly <- <-.
    destruct (processingWeekCashflow_resolved db params Hacc)
      as (account & report & Heq & Hrun & Hflows).
    exists report, account. rewrite Hrun, Hflows, Hweekly. done.
Qed.

(** The weekly pipeline called without a true [weekly] parameter: the weeks
    have no [id], so every bucket is empty, whatever the ledger holds. *)
Theorem weekly_without_flag_is_empty :
  forall db params,
    missing (account_id params) = false ->
    weekly params = false ->
    exists report,
      (processingWeekCashflow db params).1 = Resolved report
      /\ length (flows report)
         = weeks_count (format_YMD (dateFrom params)) (format_YMD (dateTo params))
      /\ forall flow, flow ∈ flows report -> incomes flow = [] /\ expenses flow = [].
Proof.
  intros db params Hacc Hweekly.
  destruct (processingWeekCashflow_resolved db params Hacc)
    as (account & report & Heq & Hrun & Hflows).
  exists report. rewrite Hrun, Hflows, Hweekly. split; [done |].
  rewrite groupByPeriod_map, groupingIncomeExpenseByPeriod_map.
  change (map ?g ?l) with (g <$> l).
  rewrite !length_fmap. fold (weekly_periods (format_YMD (dateFrom params))
                                (format_YMD (dateTo params))).
  split; [apply weekly_periods_length |].
  intros flow Hflow.
  apply list_elem_of_fmap in Hflow as (pf & -> & Hpf).
  apply list_elem_of_fmap in Hpf as (p & -> & Hp). cbn.
  apply list_elem_of_lookup in Hp as [k Hp].
  destruct (weekly_periods_Some _ _ _ _ Hp) as (_ & Hid & _).
  assert (Hnone : filter (in_period false p)
                    (income_expense db account (format_YMD (dateFrom params))
                       (format_YMD (dateTo params))) = []).
  { generalize (income_expense db account (format_YMD (dateFrom params))
                  (format_YMD (dateTo params))).
    intros l. induction l as [| f l IH]; [done |].
    rewrite filter_cons_False; [exact IH |]. unfold in_period. by rewrite Hid. }
  rewrite Hnone. done.
Qed.

(** The request of March 2024 sent without the [weekly] parameter. *)
Definition march_2024_no_flag : Params :=
  {| account_id := Some "3627"; dateFrom := DateStr (ymd 2024 3 5);
     dateTo := DateStr (ymd 2024 3 20); weekly := false |}.

Lemma weekly_without_flag_2024 :
  exists report,
    (processingWeekCashflow db_2024 march_2024_no_flag).1 = Resolved report
    /\ length (flows report)
       = weeks_count (format_YMD (dateFrom march_2024_no_flag))
                     (format_YMD (dateTo march_2024_no_flag))
    /\ forall flow, flow ∈ flows report -> incomes flow = [] /\ expenses flow = [].
Proof.
  apply (weekly_without_flag_is_empty db_2024 march_2024_no_flag); reflexivity.
Defined.

(** ** labelization *)

(** [_.uniq(labels)]: the first occurrence of each label, in order. *)
Definition uniq (labels : list string) : list string :=
  foldl (fun kept x => if decide (x ∈ kept) then kept else kept ++ [x]) [] labels.

(** What [labelization] binds to the view. *)
Record View := {
  view_incomesLabels : list string;
  view_expensesLabels : list string;
  view_incomes : gmap Day (gmap string Z);
  view_expenses : gmap Day (gmap string Z);
  totalIncomes : gmap Day Z;
  totalExpenses : gmap Day Z
}.

(** The cells of one period: for each label in turn, all the transactions
    of the period are visited and one with that label sets the cell.
    [entries] is [session.summationIncome[period]]; visiting it when it is
    [undefined] raises a [TypeError], which is [None]. *)
Definition label_cells (labels : list string) (entries : option (list Entry))
  : option (gmap string Z) :=
  foldl (fun row label =>
           row ← row;
           entries ← entries;
           Some (foldl (fun row transaction =>
                          if decide (transfer_type transaction = label)
                          then <[ label := value transaction ]> row else row)
                       row entries))
        (Some ∅) labels.

(** The total of one period. *)
Definition total_cells (entries : option (list Entry)) : option Z :=
  entries ← entries;
  Some (foldl (fun total transaction => total + value transaction) 0 entries).

(** [session.periodStartArray.forEach(period => { target[period] = ... })]. *)
Definition per_period {A} (cell : Day -> option A) (periods : list Day)
  : option (gmap Day A) :=
  foldl (fun target period =>
           target ← target;
           a ← cell period;
           Some (<[ period := a ]> target))
        (Some ∅) periods.

(** [labelization()]: [None] when it raises. *)
Definition labelization (session : Session) : option View :=
  let incomesLabels := uniq (incomesLabels session) in
  let expensesLabels := uniq (expensesLabels session) in
  incomes ← per_period (fun period =>
                          label_cells incomesLabels (summationIncome session !! period))
                       (periodStartArray session);
  totalIncomes ← per_period (fun period => total_cells (summationIncome session !! period))
                            (periodStartArray session);
  expenses ← per_period (fun period =>
                           label_cells expensesLabels (summationExpense session !! period))
                        (periodStartArray session);
  totalExpenses ← per_period (fun period => total_cells (summationExpense session !! period))
                             (periodStartArray session);
  Some {| view_incomesLabels := incomesLabels;
          view_expensesLabels := expensesLabels;
          view_incomes := incomes;
          view_expenses := expenses;
          totalIncomes := totalIncomes;
          totalExpenses := totalExpenses |}.

(** The sum of the cells of a row over the labels. *)
Definition row_total (labels : list string) (row : gmap string Z) : Z :=
  foldr Z.add 0 ((fun label => default 0 (row !! label)) <$> labels).

Lemma uniq_spec (labels : list string) :
  NoDup (uniq labels) /\ forall x, x ∈ uniq labels <-> x ∈ labels.
Proof.
  unfold uniq.
  assert (H : forall (l kept : list string),
             NoDup kept ->
             NoDup (foldl (fun kept x => if decide (x ∈ kept) then kept else kept ++ [x]) kept l)
             /\ forall x : string,
                  x ∈ foldl (fun kept x => if decide (x ∈ kept) then kept
                                           else kept ++ [x]) kept l
                  <-> x ∈ kept \/ x ∈ l).
  { induction l as [| y l IH]; intros kept Hkept; cbn.
    - split; [done |]. intros x. rewrite elem_of_nil. tauto.
    - destruct (decide (y ∈ kept)) as [Hy | Hy].
      + destruct (IH kept Hkept) as [Hn Hm]. split; [done |].
        intros x. rewrite Hm, elem_of_cons. split; [tauto |].
        intros [? | [-> | ?]]; tauto.
      + destruct (IH (kept ++ [y])) as [Hn Hm].
        { apply NoDup_app. split; [done |]. split; [| apply NoDup_singleton].
          intros x Hx Hx'. apply list_elem_of_singleton in Hx' as ->. done. }
        split; [done |]. intros x.
        rewrite Hm, elem_of_app, list_elem_of_singleton, elem_of_cons. tauto. }
  destruct (H labels [] (NoDup_nil_2)) as [Hn Hm]. split; [done |].
  intros x. rewrite Hm, elem_of_nil. tauto.
Qed.

(** Once an exception is raised the rest of a loop is skipped. *)
Lemma foldl_raised {A B} (step : option A -> B -> option A) (l : list B) :
  (forall b, step None b = None) -> foldl step None l = None.
Proof. intros H. induction l as [| b l IH]; cbn; [done |]. by rewrite H. Qed.

(** A loop over the periods succeeds when every cell does, and then holds
    the cell of each period. *)
Lemma per_period_spec {A} (cell : Day -> option A) (periods : list Day) :
  match per_period cell periods with
  | Some target =>
      (forall p, p ∈ periods -> target !! p = cell p /\ is_Some (cell p))
      /\ (forall p, p ∉ periods -> target !! p = None)
  | None => exists p, p ∈ periods /\ cell p = None
  end.
Proof.
  unfold per_period.
  assert (H : forall l (t0 : gmap Day A),
             match foldl (fun target period =>
                            target ← target; a ← cell period;
                            Some (<[ period := a ]> target)) (Some t0) l with
             | Some target =>
                 (forall p, p ∈ l -> target !! p = cell p /\ is_Some (cell p))
                 /\ (forall p, p ∉ l -> target !! p = t0 !! p)
             | None => exists p, p ∈ l /\ cell p = None
             end).
  { induction l as [| q l IH]; intros t0; cbn.
    - split; [| done]. intros p Hp. by apply elem_of_nil in Hp.
    - destruct (cell q) as [a |] eqn:Hq; cbn.
      + specialize (IH (<[ q := a ]> t0)).
        destruct (foldl _ _ l) as [target |].
        * destruct IH as [Hin Hout]. split.
          -- intros p Hp. destruct (decide (p ∈ l)) as [Hl | Hl]; [by apply Hin |].
             apply elem_of_cons in Hp as [-> | Hp]; [| done].
             rewrite (Hout q Hl), lookup_insert_eq, Hq. eauto.
          -- intros p Hp. apply not_elem_of_cons in Hp as [Hne Hp].
             by rewrite (Hout p Hp), lookup_insert_ne.
        * destruct IH as (p & Hp & Hnone). exists p. split; [| done].
          apply elem_of_cons. by right.
      + rewrite foldl_raised by done.
        exists q. split; [apply elem_of_cons; by left | done]. }
  specialize (H periods ∅). destruct (foldl _ _ periods) as [target |]; [| done].
  destruct H as [Hin Hout]. split; [done |]. intros p Hp. by rewrite (Hout p Hp).
Qed.

(** The value of the last transaction with a label, if there is one. *)
Definition last_value (entries : list Entry) (label : string) : option Z :=
  value <$> last (filter (fun e => transfer_type e = label) entries).

Lemma label_cell_loop (label : string) (entries : list Entry) :
  forall row : gmap string Z,
    foldl (fun row transaction =>
             if decide (transfer_type transaction = label)
             then <[ label := value transaction ]> row else row)
          row entries
    = match last_value entries label with
      | Some v => <[ label := v ]> row
      | None => row
      end.
Proof.
  unfold last_value.
  induction entries as [| e es IH]; intros row; [done |].
  cbn [foldl]. rewrite IH, filter_cons.
  destruct (decide (transfer_type e = label)) as [He | He]; [| done].
  rewrite last_cons. destruct (last (filter _ es)) as [e' |]; cbn; [| done].
  by rewrite insert_insert_eq.
Qed.

Lemma label_cells_raises label labels : label_cells (label :: labels) None = None.
Proof. unfold label_cells. cbn. apply foldl_raised. done. Qed.

(** The cells of a period: one for each label that a transaction of the
    period has, holding the value of the last such transaction. *)
Lemma label_cells_spec (labels : list string) (entries : list Entry) :
  exists row,
    label_cells labels (Some entries) = Some row
    /\ forall l, row !! l = if decide (l ∈ labels) then last_value entries l else None.
Proof.
  unfold label_cells.
  assert (H : forall (ls : list string) (row0 : gmap string Z),
             exists row,
               foldl (fun row label =>
                        row ← row; entries ← Some entries;
                        Some (foldl (fun row transaction =>
                                       if decide (transfer_type transaction = label)
                                       then <[ label := value transaction ]> row else row)
                                    row entries))
                     (Some row0) ls = Some row
               /\ forall l : string,
                    row !! l = if decide (l ∈ ls)
                               then match last_value entries l with
                                    | Some v => Some v
                                    | None => row0 !! l
                                    end
                               else row0 !! l).
  { induction ls as [| x ls IH]; intros row0.
    - exists row0. split; [done |]. intros l. destruct (decide _) as [Hl | Hl]; [| done].
      by apply elem_of_nil in Hl.
    - cbn [foldl mbind option_bind]. rewrite label_cell_loop.
      destruct (IH (match last_value entries x with
                    | Some v => <[ x := v ]> row0
                    | None => row0
                    end)) as (row & Hrow & Hl).
      exists row. split; [exact Hrow |]. intros l. rewrite Hl.
      destruct (decide (l ∈ ls)) as [Hin | Hout].
      + rewrite decide_True by (apply elem_of_cons; by right).
        destruct (last_value entries l) as [v |] eqn:Hv; [done |].
        destruct (decide (x = l)) as [-> | Hne]; [by rewrite Hv |].
        destruct (last_value entries x); [by rewrite lookup_insert_ne | done].
      + destruct (decide (x = l)) as [-> | Hne].
        * rewrite decide_True by (apply elem_of_cons; by left).
          destruct (last_value entries l); [by rewrite lookup_insert_eq | done].
        * rewrite decide_False by (intros [-> | ?]%elem_of_cons; done).
          destruct (last_value entries x); [by rewrite lookup_insert_ne | done]. }
  destruct (H labels ∅) as (row & Hrow & Hl). exists row. split; [exact Hrow |].
  intros l. rewrite Hl. destruct (decide _); [| done].
  destruct (last_value entries l); done.
Qed.

(** Sums. *)
Lemma entry_sum_foldr (entries : list Entry) (init : Z) :
  foldl (fun sum transaction => sum + value transaction) init entries
  = init + foldr Z.add 0 (value <$> entries).
Proof.
  revert init. induction entries as [| e es IH]; intros init; cbn; [lia |].
  rewrite IH. lia.
Qed.

Lemma sum_one_label (L : list string) (x : string) (v : Z) (h : string -> Z) :
  NoDup L -> x ∈ L -> h x = 0 ->
  foldr Z.add 0 ((fun l => if decide (l = x) then v else h l) <$> L)
  = v + foldr Z.add 0 (h <$> L).
Proof.
  intros Hnd Hx Hh. induction L as [| y L IH]; [by apply elem_of_nil in Hx |].
  apply NoDup_cons in Hnd as [Hy Hnd]. cbn.
  destruct (decide (y = x)) as [-> | Hne].
  - rewrite Hh.
    assert (Hsame : (fun l => if decide (l = x) then v else h l) <$> L = h <$> L).
    { apply list_fmap_ext. intros i l Hl. destruct (decide (l = x)) as [-> | ?]; [| done].
      exfalso. apply Hy. apply list_elem_of_lookup. eauto. }
    rewrite Hsame. lia.
  - apply elem_of_cons in Hx as [-> | Hx]; [done |]. rewrite (IH Hnd Hx). lia.
Qed.

Lemma last_value_none (entries : list Entry) (l : string) :
  l ∉ (transfer_type <$> entries) -> last_value entries l = None.
Proof.
  intros Hl. unfold last_value.
  assert (Hnil : filter (fun e => transfer_type e = l) entries = []).
  { induction entries as [| e es IH]; [done |].
    rewrite fmap_cons in Hl. apply not_elem_of_cons in Hl as [Hne Hl].
    rewrite filter_cons_False by done. by apply IH. }
  by rewrite Hnil.
Qed.

(** When the transactions of a period have distinct labels, all among
    [labels], the cells of the period add up to the sum of their values. *)
Lemma cells_add_up (labels : list string) (entries : list Entry) :
  NoDup labels ->
  NoDup (transfer_type <$> entries) ->
  (forall e, e ∈ entries -> transfer_type e ∈ labels) ->
  foldr Z.add 0 ((fun l => default 0 (last_value entries l)) <$> labels)
  = foldr Z.add 0 (value <$> entries).
Proof.
  intros HL. induction entries as [| e es IH]; intros Hnd Hin.
  - clear Hnd Hin. induction labels as [| l ls IHl]; [done |].
    apply NoDup_cons in HL as [_ HL]. rewrite fmap_cons. cbn [foldr].
    by rewrite (IHl HL).
  - rewrite fmap_cons in Hnd. apply NoDup_cons in Hnd as [He Hnd].
    cbn [fmap list_fmap foldr]. rewrite <- IH; [| done |]; cycle 1.
    { intros e' He'. apply Hin, elem_of_cons. by right. }
    rewrite <- (sum_one_label labels (transfer_type e) (value e)); [| done | |].
    + f_equal. apply list_fmap_ext. intros i l _. unfold last_value at 1.
      rewrite filter_cons. destruct (decide (l = transfer_type e)) as [-> | Hne].
      * rewrite decide_True by done. rewrite last_cons.
        pose proof (last_value_none es (transfer_type e) He) as Hnone.
        unfold last_value in Hnone. apply fmap_None in Hnone. by rewrite Hnone.
      * rewrite decide_False by done. done.
    + apply Hin, elem_of_cons. by left.
    + by rewrite last_value_none.
Qed.

(** The state [reporting] builds, before and after the summarization. *)

Definition well_labelled (m : gmap Day (list Entry)) : Prop :=
  forall p entries, m !! p = Some entries -> NoDup (transfer_type <$> entries).

Lemma grouping_state (flows : list Flow) :
  forall s,
    well_labelled (summationIncome s) -> well_labelled (summationExpense s) ->
    let s' := foldl (fun session flow =>
                       groupingResult (incomes flow) (expenses flow) (period_key flow) session)
                    s flows in
    well_labelled (summationIncome s') /\ well_labelled (summationExpense s')
    /\ incomesLabels s' = incomesLabels s /\ expensesLabels s' = expensesLabels s
    /\ (forall flow, flow ∈ flows ->
          is_Some (summationIncome s' !! period_key flow)
          /\ is_Some (summationExpense s' !! period_key flow))
    /\ (forall p, is_Some (summationIncome s !! p) -> is_Some (summationIncome s' !! p))
    /\ (forall p, is_Some (summationExpense s !! p) -> is_Some (summationExpense s' !! p)).
Proof.
  induction flows as [| flow rest IH]; intros s HI HE; cbn.
  - repeat (split; [done |]). split; [| done]. intros flow Hflow.
    by apply elem_of_nil in Hflow.
  - destruct (IH (groupingResult (incomes flow) (expenses flow) (period_key flow) s))
      as (HI' & HE' & HLI & HLE & Hin & HkeepI & HkeepE).
    + intros p entries. cbn. destruct (decide (p = period_key flow)) as [-> | Hne].
      * rewrite lookup_insert_eq. intros [= <-]. apply remove_duplicates_spec.
      * rewrite lookup_insert_ne by done. apply HI.
    + intros p entries. cbn. destruct (decide (p = period_key flow)) as [-> | Hne].
      * rewrite lookup_insert_eq. intros [= <-]. apply remove_duplicates_spec.
      * rewrite lookup_insert_ne by done. apply HE.
    + split; [done |]. split; [done |]. split; [by rewrite HLI |]. split; [by rewrite HLE |].
      split; [| split].
      * intros f Hf. apply elem_of_cons in Hf as [-> | Hf]; [| by apply Hin].
        split; [apply HkeepI | apply HkeepE]; cbn; rewrite lookup_insert_eq; eauto.
      * intros p Hp. apply HkeepI. cbn.
        destruct (decide (p = period_key flow)) as [-> | Hne];
          [rewrite lookup_insert_eq; eauto | by rewrite lookup_insert_ne].
      * intros p Hp. apply HkeepE. cbn.
        destruct (decide (p = period_key flow)) as [-> | Hne];
          [rewrite lookup_insert_eq; eauto | by rewrite lookup_insert_ne].
Qed.

(** The labels [summarization] pushes for the periods [todo]. *)
Definition pushed_labels (m : gmap Day (list Entry)) (todo : list Day) : list string :=
  concat ((fun p => transfer_type <$> default [] (m !! p)) <$> todo).

Lemma push_labels (entries : list Entry) (labels : list string) :
  foldl (fun labels transaction => labels ++ [transfer_type transaction]) labels entries
  = labels ++ (transfer_type <$> entries).
Proof.
  revert labels. induction entries as [| e es IH]; intros labels; cbn.
  - by rewrite app_nil_r.
  - by rewrite IH, <- app_assoc.
Qed.

Lemma summarization_state (todo : list Day) :
  forall s,
    let s' := foldl (fun s p => summarization p s) s todo in
    summationIncome s' = summationIncome s
    /\ summationExpense s' = summationExpense s
    /\ periodStartArray s' = periodStartArray s
    /\ incomesLabels s' = incomesLabels s ++ pushed_labels (summationIncome s) todo
    /\ expensesLabels s' = expensesLabels s ++ pushed_labels (summationExpense s) todo
    /\ (forall p, p ∈ todo ->
          sum_incomes s' !! p = Some (entry_sum (default [] (summationIncome s !! p)))
          /\ sum_expense s' !! p = Some (entry_sum (default [] (summationExpense s !! p))))
    /\ (forall p, p ∉ todo ->
          sum_incomes s' !! p = sum_incomes s !! p
          /\ sum_expense s' !! p = sum_expense s !! p).
Proof.
  induction todo as [| q todo IH]; intros s; cbn.
  - unfold pushed_labels. cbn. rewrite !app_nil_r. repeat (split; [done |]).
    split; [| done]. intros p Hp. by apply elem_of_nil in Hp.
  - destruct (IH (summarization q s)) as (HI & HE & Harr & HLI & HLE & Hin & Hout).
    cbn in HI, HE, Harr. rewrite HI, HE, Harr.
    split; [done |]. split; [done |]. split; [done |].
    split; [| split; [| split]].
    + rewrite HLI. cbn. rewrite push_labels. unfold pushed_labels. cbn.
      by rewrite <- app_assoc.
    + rewrite HLE. cbn. rewrite push_labels. unfold pushed_labels. cbn.
      by rewrite <- app_assoc.
    + intros p Hp. destruct (decide (p ∈ todo)) as [Hl | Hl]; [by apply Hin |].
      apply elem_of_cons in Hp as [-> | Hp]; [| done].
      destruct (Hout q Hl) as [-> ->]. cbn. rewrite !lookup_insert_eq. done.
    + intros p Hp. apply not_elem_of_cons in Hp as [Hne Hp].
      destruct (Hout p Hp) as [-> ->]. cbn. rewrite !lookup_insert_ne by done. done.
Qed.

(** The session at the end of [reporting]. *)
Lemma reporting_state (rows : Report) :
  periodStartArray (reporting rows) = map period_key (flows rows)
  /\ well_labelled (summationIncome (reporting rows))
  /\ well_labelled (summationExpense (reporting rows))
  /\ incomesLabels (reporting rows)
     = pushed_labels (summationIncome (reporting rows)) (map period_key (flows rows))
  /\ expensesLabels (reporting rows)
     = pushed_labels (summationExpense (reporting rows)) (map period_key (flows rows))
  /\ (forall p, p ∈ map period_key (flows rows) ->
        exists es_in es_out,
          summationIncome (reporting rows) !! p = Some es_in
          /\ summationExpense (reporting rows) !! p = Some es_out
          /\ sum_incomes (reporting rows) !! p = Some (entry_sum es_in)
          /\ sum_expense (reporting rows) !! p = Some (entry_sum es_out)).
Proof.
  unfold reporting. rewrite foldl_summarization.
  match goal with
  | |- context [set_periodStartArray _ ?s0] => set (g := s0)
  end.
  destruct (grouping_state (flows rows)
              (set_openningBalance (balance_of (openningBalance rows)) initialization))
    as (HI & HE & HLI & HLE & Hin & _); [done | done |].
  fold g in HI, HE, HLI, HLE, Hin.
  destruct (summarization_state (map period_key (flows rows))
              (set_periodStartArray (map period_key (flows rows)) g))
    as (HsI & HsE & Harr & HsLI & HsLE & Hsum & _).
  cbn in HsI, HsE, Harr, HsLI, HsLE, Hsum.
  rewrite HsI, HsE, Harr, HsLI, HsLE, HLI, HLE. cbn.
  split; [done |]. split; [done |]. split; [done |]. split; [done |]. split; [done |].
  intros p Hp. destruct (Hsum p Hp) as [HsumI HsumE].
  apply list_elem_of_fmap in Hp as (flow & -> & Hflow).
  destruct (Hin flow Hflow) as [[es_in Hes_in] [es_out Hes_out]].
  exists es_in, es_out. rewrite HsumI, HsumE, Hes_in, Hes_out. done.
Qed.

Lemma pushed_labels_elem (m : gmap Day (list Entry)) (todo : list Day) (l : string) :
  l ∈ pushed_labels m todo
  <-> exists p es e, p ∈ todo /\ m !! p = Some es /\ e ∈ es /\ transfer_type e = l.
Proof.
  unfold pushed_labels. induction todo as [| q todo IH]; cbn.
  - rewrite elem_of_nil. split; [done |]. intros (p & _ & _ & Hp & _).
    by apply elem_of_nil in Hp.
  - rewrite elem_of_app, IH. split.
    + intros [Hq | (p & es & e & Hp & Hm & He & Hl)].
      * destruct (m !! q) as [es |] eqn:Hm; cbn in Hq; [| by apply elem_of_nil in Hq].
        apply list_elem_of_fmap in Hq as (e & -> & He).
        exists q, es, e. split; [apply elem_of_cons; by left | done].
      * exists p, es, e. split; [apply elem_of_cons; by right | done].
    + intros (p & es & e & Hp & Hm & He & Hl).
      apply elem_of_cons in Hp as [-> | Hp].
      * left. rewrite Hm. cbn. rewrite <- Hl. by apply list_elem_of_fmap_2.
      * right. exists p, es, e. done.
Qed.

Lemma last_value_elem (entries : list Entry) (l : string) (v : Z) :
  NoDup (transfer_type <$> entries) ->
  last_value entries l = Some v
  <-> exists e, e ∈ entries /\ transfer_type e = l /\ value e = v.
Proof.
  intros Hnd. unfold last_value. split.
  - intros H. apply fmap_Some in H as (e & He & ->).
    apply last_Some_elem_of, list_elem_of_filter in He as [Hl He]. eauto.
  - intros (e & He & Hl & Hv). induction entries as [| x es IH]; [by apply elem_of_nil in He |].
    rewrite fmap_cons in Hnd. apply NoDup_cons in Hnd as [Hx Hnd].
    rewrite filter_cons. apply elem_of_cons in He as [<- | He].
    + rewrite decide_True by done. rewrite last_cons.
      assert (Hnone : last_value es l = None) by (apply last_value_none; by rewrite <- Hl).
      unfold last_value in Hnone. apply fmap_None in Hnone. rewrite Hnone. cbn. by rewrite Hv.
    + destruct (decide (transfer_type x = l)) as [Hxl | Hxl]; [| by apply IH].
      exfalso. apply Hx. rewrite Hxl, <- Hl. by apply list_elem_of_fmap_2.
Qed.

(** What [labelization] computes for one side (incomes or expenses) and one
    period of the session [reporting] built. *)
Lemma side_of_period (labels0 : list string) (m : gmap Day (list Entry))
    (arr : list Day) (cells : gmap Day (gmap string Z)) (totals : gmap Day Z)
    (p : Day) (es : list Entry) :
  well_labelled m ->
  labels0 = pushed_labels m arr ->
  per_period (fun period => label_cells (uniq labels0) (m !! period)) arr = Some cells ->
  per_period (fun period => total_cells (m !! period)) arr = Some totals ->
  p ∈ arr -> m !! p = Some es ->
  exists row,
    cells !! p = Some row
    /\ (forall l v, row !! l = Some v
                    <-> exists e, e ∈ es /\ transfer_type e = l /\ value e = v)
    /\ totals !! p = Some (entry_sum es)
    /\ row_total (uniq labels0) row = entry_sum es.
Proof.
  intros Hwl Hlabels Hcells Htotals Hp Hes.
  pose proof (per_period_spec (fun period => label_cells (uniq labels0) (m !! period)) arr) as Hc.
  pose proof (per_period_spec (fun period => total_cells (m !! period)) arr) as Ht.
  rewrite Hcells in Hc. rewrite Htotals in Ht.
  destruct Hc as [Hc _]. destruct Ht as [Ht _].
  destruct (Hc p Hp) as [Hcp _]. destruct (Ht p Hp) as [Htp _].
  rewrite Hes in Hcp, Htp.
  destruct (label_cells_spec (uniq labels0) es) as (row & Hrow & Hcell).
  rewrite Hrow in Hcp. cbn in Htp.
  destruct (uniq_spec labels0) as [Hnd Hmem].
  assert (Hin : forall e, e ∈ es -> transfer_type e ∈ uniq labels0).
  { intros e He. apply Hmem. rewrite Hlabels. apply pushed_labels_elem.
    exists p, es, e. done. }
  assert (Hcell' : forall l, row !! l = last_value es l).
  { intros l. rewrite Hcell. destruct (decide _) as [| Hl]; [done |].
    symmetry. apply last_value_none. intros Hl'. apply Hl.
    apply list_elem_of_fmap in Hl' as (e & -> & He). by apply Hin. }
  exists row. split; [done |]. split; [| split; [done |]].
  - intros l v. rewrite Hcell'. apply last_value_elem. by apply (Hwl p).
  - unfold row_total, entry_sum. rewrite entry_sum_foldr, Z.add_0_l.
    rewrite <- (cells_add_up (uniq labels0) es); [| done | by apply (Hwl p) | done].
    f_equal. apply list_fmap_ext. intros i l _. by rewrite Hcell'.
Qed.

(** [labelization] raises, on reading [forEach] of [undefined], exactly when
    a period of the list has no summation list of incomes or of expenses.
    After [reporting] every period has both, and it never raises. *)
Theorem labelization_raises_iff :
  forall (session : Session) (rows : Report),
    (labelization session = None
     <-> exists p, p ∈ periodStartArray session
                   /\ (summationIncome session !! p = None
                       \/ summationExpense session !! p = None))
    /\ is_Some (labelization (reporting rows)).
Proof.
  intros session0 rows.
  assert (Hiff : forall session,
             labelization session = None
             <-> exists p, p ∈ periodStartArray session
                           /\ (summationIncome session !! p = None
                               \/ summationExpense session !! p = None)).
  { intros session. unfold labelization.
    pose proof (per_period_spec
                  (fun period => label_cells (uniq (incomesLabels session))
                                             (summationIncome session !! period))
                  (periodStartArray session)) as H1.
    pose proof (per_period_spec
                  (fun period => total_cells (summationIncome session !! period))
                  (periodStartArray session)) as H2.
    pose proof (per_period_spec
                  (fun period => label_cells (uniq (expensesLabels session))
                                             (summationExpense session !! period))
                  (periodStartArray session)) as H3.
    pose proof (per_period_spec
                  (fun period => total_cells (summationExpense session !! period))
                  (periodStartArray session)) as H4.
    assert (Hcells : forall labels (entries : option (list Entry)),
               label_cells labels entries = None -> entries = None).
    { intros labels [es |] H; [| done].
      destruct (label_cells_spec labels es) as (row & Hrow & _). congruence. }
    assert (Htot : forall entries : option (list Entry),
               total_cells entries = None -> entries = None).
    { by intros [es |] H. }
    split.
    - intros Hnone.
      destruct (per_period _ _) as [c1 |] eqn:E1 in Hnone, H1; cycle 1.
      { destruct H1 as (p & Hp & Hc). exists p. split; [done |]. left. by eapply Hcells. }
      destruct (per_period (fun period => total_cells (summationIncome session !! period)) _)
        as [c2 |] eqn:E2 in Hnone, H2; cycle 1.
      { destruct H2 as (p & Hp & Hc). exists p. split; [done |]. left. by apply Htot. }
      destruct (per_period (fun period => label_cells (uniq (expensesLabels session)) _) _)
        as [c3 |] eqn:E3 in Hnone, H3; cycle 1.
      { destruct H3 as (p & Hp & Hc). exists p. split; [done |]. right. by eapply Hcells. }
      destruct (per_period (fun period => total_cells (summationExpense session !! period)) _)
        as [c4 |] eqn:E4 in Hnone, H4; cycle 1.
      { destruct H4 as (p & Hp & Hc). exists p. split; [done |]. right. by apply Htot. }
      done.
    - intros (p & Hp & [Hin | Hout]).
      + destruct (per_period (fun period => total_cells (summationIncome session !! period)) _)
          as [c2 |] eqn:E2.
        * destruct H2 as [H2 _]. destruct (H2 p Hp) as [_ [x Hx]]. by rewrite Hin in Hx.
        * by destruct (per_period _ _).
      + destruct (per_period (fun period => total_cells (summationExpense session !! period)) _)
          as [c4 |] eqn:E4.
        * destruct H4 as [H4 _]. destruct (H4 p Hp) as [_ [x Hx]]. by rewrite Hout in Hx.
        * destruct (per_period _ _); [| done]. cbn.
          destruct (per_period _ _); [| done]. cbn.
          by destruct (per_period _ _). }
  split; [apply Hiff |].
  destruct (labelization (reporting rows)) as [view |] eqn:Hview; [eauto |].
  apply Hiff in Hview as (p & Hp & Hnone).
  destruct (reporting_state rows) as (Harr & _ & _ & _ & _ & Hall).
  rewrite Harr in Hp. destruct (Hall p Hp) as (es_in & es_out & Hin & Hout & _).
  rewrite Hin, Hout in Hnone. by destruct Hnone.
Qed.

(** After [reporting], the labels [labelization] keeps for the incomes are
    pairwise distinct and are exactly the labels of the entries of the
    summation lists of the periods; so are those of the expenses. *)
Theorem labelization_labels :
  forall (rows : Report) (view : View),
    labelization (reporting rows) = Some view ->
    NoDup (view_incomesLabels view) /\ NoDup (view_expensesLabels view)
    /\ (forall l,
          l ∈ view_incomesLabels view
          <-> exists p es e,
                p ∈ periodStartArray (reporting rows)
                /\ summationIncome (reporting rows) !! p = Some es
                /\ e ∈ es /\ transfer_type e = l)
    /\ (forall l,
          l ∈ view_expensesLabels view
          <-> exists p es e,
                p ∈ periodStartArray (reporting rows)
                /\ summationExpense (reporting rows) !! p = Some es
                /\ e ∈ es /\ transfer_type e = l).
Proof.
  intros rows view Hview.
  destruct (reporting_state rows) as (Harr & _ & _ & HLI & HLE & _).
  unfold labelization in Hview.
  repeat match type of Hview with
         | context [per_period ?f ?l] => destruct (per_period f l); [| done]
         end.
  cbn in Hview. injection Hview as <-. cbn.
  destruct (uniq_spec (incomesLabels (reporting rows))) as [HnI HmI].
  destruct (uniq_spec (expensesLabels (reporting rows))) as [HnE HmE].
  split; [done |]. split; [done |]. split.
  - intros l. rewrite HmI, HLI, Harr. apply pushed_labels_elem.
  - intros l. rewrite HmE, HLE, Harr. apply pushed_labels_elem.
Qed.

(** The view of the scenario of two periods. *)
Definition view_two_periods : View :=
  {| view_incomesLabels := [ "CASH_PAYMENT" ];
     view_expensesLabels := [ "PURCHASES" ];
     view_incomes := <[ ymd 2024 1 1 := {[ "CASH_PAYMENT" := 500 ]} ]>
                       {[ ymd 2024 2 1 := {[ "CASH_PAYMENT" := 300 ]} ]};
     view_expenses := <[ ymd 2024 1 1 := {[ "PURCHASES" := 200 ]} ]>
                        {[ ymd 2024 2 1 := {[ "PURCHASES" := 400 ]} ]};
     totalIncomes := <[ ymd 2024 1 1 := 500 ]> {[ ymd 2024 2 1 := 300 ]};
     totalExpenses := <[ ymd 2024 1 1 := 200 ]> {[ ymd 2024 2 1 := 400 ]} |}.

Lemma labelization_labels_two_periods :
  NoDup (view_incomesLabels view_two_periods)
  /\ NoDup (view_expensesLabels view_two_periods)
  /\ (forall l,
        l ∈ view_incomesLabels view_two_periods
        <-> exists p es e,
              p ∈ periodStartArray (reporting rows_two_periods)
              /\ summationIncome (reporting rows_two_periods) !! p = Some es
              /\ e ∈ es /\ transfer_type e = l)
  /\ (forall l,
        l ∈ view_expensesLabels view_two_periods
        <-> exists p es e,
              p ∈ periodStartArray (reporting rows_two_periods)
              /\ summationExpense (reporting rows_two_periods) !! p = Some es
              /\ e ∈ es /\ transfer_type e = l).
Proof.
  apply (labelization_labels rows_two_periods view_two_periods).
  vm_compute. reflexivity.
Defined.

(** After [reporting], for every period: each cell of the period's row of
    incomes holds the value of the period's entry with that label, and there
    is no cell for a label the period has no entry for; the total of the
    period is the sum [summarization] recorded in [sum_incomes]; and the
    cells of the row, taken over the labels of the view, add up to that
    total. The same holds for the expenses. *)
Theorem labelization_rows_and_totals :
  forall (rows : Report) (view : View),
    labelization (reporting rows) = Some view ->
    forall p,
      p ∈ periodStartArray (reporting rows) ->
      (exists es row,
          summationIncome (reporting rows) !! p = Some es
          /\ view_incomes view !! p = Some row
          /\ (forall l v, row !! l = Some v
                          <-> exists e, e ∈ es /\ transfer_type e = l /\ value e = v)
          /\ totalIncomes view !! p = Some (entry_sum es)
          /\ sum_incomes (reporting rows) !! p = totalIncomes view !! p
          /\ row_total (view_incomesLabels view) row = entry_sum es)
      /\ (exists es row,
             summationExpense (reporting rows) !! p = Some es
             /\ view_expenses view !! p = Some row
             /\ (forall l v, row !! l = Some v
                             <-> exists e, e ∈ es /\ transfer_type e = l /\ value e = v)
             /\ totalExpenses view !! p = Some (entry_sum es)
             /\ sum_expense (reporting rows) !! p = totalExpenses view !! p
             /\ row_total (view_expensesLabels view) row = entry_sum es).
Proof.
  intros rows view Hview p Hp.
  destruct (reporting_state rows) as (Harr & HwI & HwE & HLI & HLE & Hall).
  rewrite Harr in Hp. destruct (Hall p Hp) as (es_in & es_out & Hin & Hout & HsI & HsE).
  unfold labelization in Hview. rewrite Harr in Hview.
  destruct (per_period (fun period => label_cells (uniq (incomesLabels (reporting rows))) _) _)
    as [c1 |] eqn:E1; [| done].
  destruct (per_period (fun period => total_cells (summationIncome (reporting rows) !! period)) _)
    as [c2 |] eqn:E2; [| done].
  destruct (per_period (fun period => label_cells (uniq (expensesLabels (reporting rows))) _) _)
    as [c3 |] eqn:E3; [| done].
  destruct (per_period (fun period => total_cells (summationExpense (reporting rows) !! period)) _)
    as [c4 |] eqn:E4; [| done].
  cbn in Hview. injection Hview as <-. cbn. split.
  - destruct (side_of_period _ _ _ _ _ p es_in HwI HLI E1 E2 Hp Hin)
      as (row & Hrow & Hcells & Htot & Hsum).
    exists es_in, row. rewrite HsI, Htot. done.
  - destruct (side_of_period _ _ _ _ _ p es_out HwE HLE E3 E4 Hp Hout)
      as (row & Hrow & Hcells & Htot & Hsum).
    exists es_out, row. rewrite HsE, Htot. done.
Qed.

Lemma labelization_rows_two_periods :
  (exists es row,
      summationIncome (reporting rows_two_periods) !! ymd 2024 2 1 = Some es
      /\ view_incomes view_two_periods !! ymd 2024 2 1 = Some row
      /\ (forall l v, row !! l = Some v
                      <-> exists e, e ∈ es /\ transfer_type e = l /\ value e = v)
      /\ totalIncomes view_two_periods !! ymd 2024 2 1 = Some (entry_sum es)
      /\ sum_incomes (reporting rows_two_periods) !! ymd 2024 2 1
         = totalIncomes view_two_periods !! ymd 2024 2 1
      /\ row_total (view_incomesLabels view_two_periods) row = entry_sum es)
  /\ (exists es row,
         summationExpense (reporting rows_two_periods) !! ymd 2024 2 1 = Some es
         /\ view_expenses view_two_periods !! ymd 2024 2 1 = Some row
         /\ (forall l v, row !! l = Some v
                         <-> exists e, e ∈ es /\ transfer_type e = l /\ value e = v)
         /\ totalExpenses view_two_periods !! ymd 2024 2 1 = Some (entry_sum es)
         /\ sum_expense (reporting rows_two_periods) !! ymd 2024 2 1
            = totalExpenses view_two_periods !! ymd 2024 2 1
         /\ row_total (view_expensesLabels view_two_periods) row = entry_sum es).
Proof.
  apply (labelization_rows_and_totals rows_two_periods view_two_periods).
  - vm_compute. reflexivity.
  - vm_compute. apply list_elem_of_further, list_elem_of_here.
Defined.

(** ** Which entries groupingResult keeps, and what they add up to *)

(** The filter that removes duplicates, by recursion on the list. *)
Fixpoint dedup_labels (cache : gset string) (entries : list Entry) : list Entry :=
  match entries with
  | [] => []
  | e :: es =>
      if decide (transfer_type e ∈ cache) then dedup_labels cache es
      else e :: dedup_labels ({[ transfer_type e ]} ∪ cache) es
  end.

(** The first posting of each origin. *)
Fixpoint first_of_origin (seen : gset Z) (items : list Posting) : list Posting :=
  match items with
  | [] => []
  | i :: rest =>
      if decide (origin_id i ∈ seen) then first_of_origin seen rest
      else i :: first_of_origin ({[ origin_id i ]} ∪ seen) rest
  end.

(** The sum of [amount] over the postings that pass a test. *)
Definition amount_where (amount : Posting -> Z) (P : Posting -> Prop)
    `{!forall x, Decision (P x)} (postings : list Posting) : Z :=
  foldr Z.add 0 (amount <$> filter P postings).

(** The filter is that recursion, from the set of the inherited names. *)
Lemma remove_duplicates_dedup (entries : list Entry) :
  remove_duplicates entries = dedup_labels (list_to_set inherited_names) entries.
Proof.
  unfold remove_duplicates.
  assert (H : forall es (cache : gset string) (kept : list Entry),
             (foldl (fun '(cache, kept) elem =>
                       if decide (transfer_type elem ∈ (cache : gset string)
                                  \/ transfer_type elem ∈ inherited_names)
                       then (cache, kept)
                       else ({[ transfer_type elem ]} ∪ cache, kept ++ [elem]))
                    (cache, kept) es).2
             = kept ++ dedup_labels (cache ∪ list_to_set inherited_names) es).
  { induction es as [| e es IH]; intros cache kept; cbn [foldl dedup_labels snd].
    - by rewrite app_nil_r.
    - destruct (decide (transfer_type e ∈ cache \/ transfer_type e ∈ inherited_names))
        as [Hin | Hout];
        destruct (decide (transfer_type e ∈ cache ∪ list_to_set inherited_names))
        as [Hin' | Hout'].
      + apply IH.
      + exfalso. apply Hout'. rewrite elem_of_union, elem_of_list_to_set. done.
      + exfalso. apply Hout. rewrite elem_of_union, elem_of_list_to_set in Hin'. done.
      + by rewrite IH, <- app_assoc, (assoc_L (∪)). }
  by rewrite H, (left_id_L ∅ (∪)).
Qed.

Lemma dedup_labels_elem (entries : list Entry) :
  forall (cache : gset string) (e : Entry),
    e ∈ dedup_labels cache entries
    <-> exists i : nat,
          entries !! i = Some e /\ (transfer_type e ∉ cache)
          /\ forall (j : nat) e', (j < i)%nat -> entries !! j = Some e' ->
                                  transfer_type e' ≠ transfer_type e.
Proof.
  induction entries as [| x es IH]; intros cache e; cbn.
  - rewrite elem_of_nil. split; [done |]. by intros (i & Hi & _).
  - destruct (decide (transfer_type x ∈ cache)) as [Hx | Hx].
    + rewrite IH. split.
      * intros (i & Hi & He & Hfirst). exists (S i). split; [done |]. split; [done |].
        intros [| j] e' Hj Hj'; cbn in Hj'.
        -- injection Hj' as <-. intros Heq. apply He. by rewrite <- Heq.
        -- apply (Hfirst j); [lia | done].
      * intros ([| i] & Hi & He & Hfirst); cbn in Hi.
        -- injection Hi as <-. done.
        -- exists i. split; [done |]. split; [done |].
           intros j e' Hj Hj'. apply (Hfirst (S j)); [lia | done].
    + rewrite elem_of_cons, IH. split.
      * intros [-> | (i & Hi & He & Hfirst)].
        -- exists 0%nat. split; [done |]. split; [done |]. intros j e' Hj. lia.
        -- exists (S i). split; [done |]. split.
           { intros Hc. apply He, elem_of_union. by right. }
           intros [| j] e' Hj Hj'; cbn in Hj'.
           ++ injection Hj' as <-. intros Heq. apply He, elem_of_union. left.
              by apply elem_of_singleton.
           ++ apply (Hfirst j); [lia | done].
      * intros ([| i] & Hi & He & Hfirst); cbn in Hi.
        -- injection Hi as <-. by left.
        -- right. exists i. split; [done |]. split.
           ++ assert (Hne : transfer_type x ≠ transfer_type e)
                by (apply (Hfirst 0%nat); [lia | done]).
              intros [Hc | Hc]%elem_of_union; [| done].
              apply elem_of_singleton in Hc. by apply Hne.
           ++ intros j e' Hj Hj'. apply (Hfirst (S j)); [lia | done].
Qed.

Lemma dedup_labels_sublist (entries : list Entry) :
  forall cache, sublist (dedup_labels cache entries) entries.
Proof.
  induction entries as [| x es IH]; intros cache; cbn; [done |].
  destruct (decide _); [apply sublist_cons | apply sublist_skip]; apply IH.
Qed.

(** One more entry at the end: it is kept when its label is neither the
    label of an entry before it nor in the cache at the start. *)
Lemma dedup_labels_snoc (entries : list Entry) :
  forall (cache : gset string) (e : Entry),
    dedup_labels cache (entries ++ [e])
    = dedup_labels cache entries
        ++ (if decide (transfer_type e ∈ cache
                       \/ transfer_type e ∈ (transfer_type <$> entries))
            then [] else [e]).
Proof.
  induction entries as [| x es IH]; intros cache e;
    cbn [app dedup_labels fmap list_fmap].
  - destruct (decide (transfer_type e ∈ cache)) as [H | H];
      destruct (decide (_ \/ _)) as [H' | H']; try done.
    + exfalso. apply H'. by left.
    + exfalso. destruct H' as [H' | H']; [done | by apply elem_of_nil in H'].
  - destruct (decide (transfer_type x ∈ cache)) as [Hx | Hx].
    + rewrite IH. f_equal. apply decide_ext. rewrite elem_of_cons.
      split; [tauto |]. intros [H | [H | H]]; [tauto | left; by rewrite H | tauto].
    + rewrite IH. cbn [app]. do 2 f_equal. apply decide_ext.
      rewrite elem_of_union, elem_of_singleton, elem_of_cons. tauto.
Qed.

(** The filter that removes duplicates goes through the entries in order
    and keeps an entry exactly when no entry before it has its label and the
    label is not a name that the cache object inherits: for each such label
    the first entry is kept, with its currency and its value, a later entry
    with a label already met is removed, and the entries kept stay in their
    order. *)
Theorem remove_duplicates_keeps_first :
  remove_duplicates [] = []
  /\ forall (entries : list Entry),
       (forall e,
           remove_duplicates (entries ++ [e])
           = remove_duplicates entries
               ++ (if decide (transfer_type e ∈ (transfer_type <$> entries)
                              \/ transfer_type e ∈ inherited_names)
                   then [] else [e]))
       /\ NoDup (transfer_type <$> remove_duplicates entries)
       /\ sublist (remove_duplicates entries) entries
       /\ forall e,
            e ∈ remove_duplicates entries
            <-> exists i : nat,
                  entries !! i = Some e
                  /\ (transfer_type e ∉ inherited_names)
                  /\ forall (j : nat) e', (j < i)%nat -> entries !! j = Some e' ->
                                          transfer_type e' ≠ transfer_type e.
Proof.
  split; [done |]. intros entries. split; [| split; [| split]].
  - intros e. rewrite !remove_duplicates_dedup, dedup_labels_snoc. f_equal.
    apply decide_ext. rewrite elem_of_list_to_set. tauto.
  - apply remove_duplicates_spec.
  - rewrite remove_duplicates_dedup. apply dedup_labels_sublist.
  - intros e. rewrite remove_duplicates_dedup, dedup_labels_elem.
    split; intros (i & Hi & Hown & Hfirst); exists i; (split; [done |]); (split; [| done]).
    + by rewrite elem_of_list_to_set in Hown.
    + by rewrite elem_of_list_to_set.
Qed.

(** An entry met twice is kept once, and an entry whose label is an
    inherited name is not kept. *)
Example remove_duplicates_twice_and_inherited :
  remove_duplicates
    [ {| transfer_type := "CASH_PAYMENT"; entry_currency_id := 2; value := 800 |};
      {| transfer_type := "constructor"; entry_currency_id := 2; value := 10 |};
      {| transfer_type := "CASH_PAYMENT"; entry_currency_id := 2; value := 800 |} ]
  = [ {| transfer_type := "CASH_PAYMENT"; entry_currency_id := 2; value := 800 |} ].
Proof. vm_compute. reflexivity. Qed.

Lemma filter_agree {A} (P Q : A -> Prop) `{!forall x, Decision (P x)}
    `{!forall x, Decision (Q x)} (l : list A) :
  (forall x, x ∈ l -> P x <-> Q x) -> filter P l = filter Q l.
Proof.
  induction l as [| x l IH]; intros Hagree; [done |].
  rewrite !filter_cons.
  assert (Hx : P x <-> Q x) by (apply Hagree, elem_of_cons; by left).
  rewrite IH by (intros y Hy; apply Hagree, elem_of_cons; by right).
  destruct (decide (P x)), (decide (Q x)); tauto.
Qed.

Lemma amount_where_split (amount : Posting -> Z) (P Q R : Posting -> Prop)
    `{!forall x, Decision (P x)} `{!forall x, Decision (Q x)}
    `{!forall x, Decision (R x)} (postings : list Posting) :
  (forall x, P x <-> Q x \/ R x) -> (forall x, Q x -> R x -> False) ->
  amount_where amount P postings
  = amount_where amount Q postings + amount_where amount R postings.
Proof.
  intros HP Hdisj. unfold amount_where.
  induction postings as [| x l IH]; [done |].
  rewrite !filter_cons. specialize (HP x). specialize (Hdisj x).
  destruct (decide (P x)), (decide (Q x)), (decide (R x)); cbn; try tauto; lia.
Qed.

(** The totals of the first postings of the origins not yet seen are the
    amounts of all the postings of these origins. *)
Lemma first_of_origin_total (amount : Posting -> Z) (postings : list Posting) :
  forall (items : list Posting) (seen : gset Z),
    foldr Z.add 0 ((fun i => total_by_origin amount (origin_id i) postings)
                     <$> first_of_origin seen items)
    = amount_where amount
        (fun x => origin_id x ∈ (list_to_set (origin_id <$> items) : gset Z)
                  /\ origin_id x ∉ seen)
        postings.
Proof.
  induction items as [| i rest IH]; intros seen.
  - cbn. unfold amount_where. rewrite (filter_agree _ (fun _ => False)).
    + by induction postings.
    + intros x _. cbn. rewrite elem_of_empty. tauto.
  - cbn [first_of_origin]. destruct (decide (origin_id i ∈ seen)) as [Hi | Hi].
    + rewrite IH. unfold amount_where. f_equal. f_equal. apply filter_agree.
      intros x _. rewrite fmap_cons. cbn. rewrite elem_of_union, elem_of_singleton.
      split; [tauto |]. intros [[-> | ?] ?]; tauto.
    + rewrite (amount_where_split amount _
                 (fun x => origin_id x = origin_id i)
                 (fun x => origin_id x ∈ (list_to_set (origin_id <$> rest) : gset Z)
                           /\ origin_id x ∉ {[ origin_id i ]} ∪ seen)).
      * cbn [fmap list_fmap foldr]. by rewrite IH.
      * intros x. rewrite fmap_cons. cbn.
        rewrite !elem_of_union, !elem_of_singleton.
        destruct (decide (origin_id x = origin_id i)) as [-> | Hne]; tauto.
      * intros x Hx [_ Hnot]. apply Hnot, elem_of_union. left. by apply elem_of_singleton.
Qed.

(** When two postings with an origin have the same transaction type exactly
    when they have the same origin, removing the duplicate labels keeps the
    entry of the first posting of each origin. *)
Lemma dedup_labels_origins (amount : Posting -> Z) (postings all : list Posting) :
  (forall a b, a ∈ all -> b ∈ all ->
               (transactionType a = transactionType b <-> origin_id a = origin_id b)) ->
  forall (items : list Posting) (cache : gset string) (seen : gset Z),
    (forall i, i ∈ items -> i ∈ all) ->
    (forall i, i ∈ all -> transactionType i ∈ cache <-> origin_id i ∈ seen) ->
    dedup_labels cache (entry_of amount postings <$> items)
    = entry_of amount postings <$> first_of_origin seen items.
Proof.
  intros Hbij. induction items as [| i rest IH]; intros cache seen Hsub Hinv; [done |].
  assert (Hi : i ∈ all) by (apply Hsub, elem_of_cons; by left).
  assert (Hrest : forall j, j ∈ rest -> j ∈ all)
    by (intros j Hj; apply Hsub, elem_of_cons; by right).
  cbn [fmap list_fmap dedup_labels first_of_origin entry_of transfer_type].
  destruct (decide (transactionType i ∈ cache)) as [Hc | Hc];
    destruct (decide (origin_id i ∈ seen)) as [Hs | Hs].
  - by apply IH.
  - by apply Hinv in Hc.
  - by apply Hinv in Hs.
  - cbn [fmap list_fmap]. f_equal. apply IH; [done |].
    intros j Hj. rewrite !elem_of_union, !elem_of_singleton, (Hinv j Hj), (Hbij j i Hj Hi).
    done.
Qed.

(** The sum that [summarization] computes for a period is the total amount
    of the postings with an origin, provided that, among these postings, two
    have the same transaction type exactly when they have the same origin.
    (Without that, the postings of a second origin under a label already
    seen are left out of the sum.) The transaction types are taken not to
    be names that the cache of the filter inherits. *)
Theorem sum_of_entries_is_total :
  forall (amount : Posting -> Z) (postings : list Posting),
    Forall (fun a => transactionType a ∉ inherited_names) postings ->
    (forall a b, a ∈ postings -> b ∈ postings ->
                 origin_id a ≠ 0 -> origin_id b ≠ 0 ->
                 (transactionType a = transactionType b <-> origin_id a = origin_id b)) ->
    entry_sum (remove_duplicates (pushed_entries amount postings))
    = amount_where amount (fun x => origin_id x ≠ 0) postings.
Proof.
  intros amount postings Hown Hbij.
  rewrite remove_duplicates_dedup, pushed_entries_map.
  set (items := filter (fun item => origin_id item ≠ 0) postings).
  assert (H1 : forall a b, a ∈ items -> b ∈ items ->
                           (transactionType a = transactionType b
                            <-> origin_id a = origin_id b)).
  { intros a b [Ha Ha']%list_elem_of_filter [Hb Hb']%list_elem_of_filter.
    by apply Hbij. }
  assert (H2 : forall i, i ∈ items ->
                         transactionType i ∈ (list_to_set inherited_names : gset string)
                         <-> origin_id i ∈ (∅ : gset Z)).
  { intros i [_ Hi]%list_elem_of_filter.
    rewrite elem_of_list_to_set, elem_of_empty. split; [| done].
    by apply (proj1 (Forall_forall _ _) Hown i Hi). }
  rewrite (dedup_labels_origins amount postings items H1 items
             (list_to_set inherited_names) ∅ (fun i Hi => Hi) H2).
  unfold entry_sum. rewrite entry_sum_foldr, Z.add_0_l, <- list_fmap_compose.
  change (value ∘ entry_of amount postings)
    with (fun i => total_by_origin amount (origin_id i) postings).
  rewrite first_of_origin_total. unfold amount_where. do 2 f_equal.
  apply filter_agree. intros x Hx. rewrite elem_of_list_to_set. split.
  - intros [Hin _]. apply list_elem_of_fmap in Hin as (i & Hi & Hin).
    apply list_elem_of_filter in Hin as [Hne _]. by rewrite Hi.
  - intros Hne. split; [| apply not_elem_of_empty].
    apply list_elem_of_fmap. exists x. split; [done |].
    by apply list_elem_of_filter.
Qed.

(** Two receipts of origin 2 and a deposit of origin 5, each origin with its
    own label. *)
Definition three_incomes : list Posting :=
  [ posting "TRANS1" (ymd 2024 1 10) 1 500 0 2 "CASH_PAYMENT";
    posting "TRANS2" (ymd 2024 1 11) 1 300 0 2 "CASH_PAYMENT";
    posting "TRANS3" (ymd 2024 1 12) 1 50 0 5 "CAUTION" ].

Lemma sum_of_three_incomes :
  entry_sum (remove_duplicates (pushed_entries debit_equiv three_incomes))
  = amount_where debit_equiv (fun x => origin_id x ≠ 0) three_incomes.
Proof.
  apply (sum_of_entries_is_total debit_equiv three_incomes).
  { apply (bool_decide_unpack _). vm_compute. exact I. }
  intros a b Ha Hb _ _.
  repeat (apply elem_of_cons in Ha as [-> | Ha]);
    repeat (apply elem_of_cons in Hb as [-> | Hb]);
    try (by apply elem_of_nil in Ha); try (by apply elem_of_nil in Hb);
    split; intros H; first [reflexivity | discriminate H].
Defined.

(** The same two receipts, and a third posting of another origin under the
    label of the receipts: its 50 are not in the sum. *)
Example sum_loses_second_origin :
  entry_sum (remove_duplicates
               (pushed_entries debit_equiv
                  [ posting "TRANS1" (ymd 2024 1 10) 1 500 0 2 "CASH_PAYMENT";
                    posting "TRANS2" (ymd 2024 1 11) 1 300 0 2 "CASH_PAYMENT";
                    posting "TRANS3" (ymd 2024 1 12) 1 50 0 5 "CASH_PAYMENT" ]))
  = 800.
Proof. vm_compute. reflexivity. Qed.

(** ** The report by service: the ids, the lines and the total *)

(** [ids.filter((id, index, array) => array.indexOf(id) === index)]. *)
Definition first_occurrences (ids : list Z) : list Z :=
  (foldl (fun '(index, kept) id =>
            (index + 1, if decide (indexOf ids id = index) then kept ++ [id] else kept))
         (0, []) ids).2.

(** A row of the query of the totals, and the object pushed after them. A
    property an object does not have is [None]. *)
Record Aggregate := {
  service_name : option string;
  totalCashIncome : option Cell;
  totalAcruelIncome : option Z
}.

(** The queries of [reportByService]. *)
Inductive ServiceQuery :=
| QCashflowByService
| QServices (serviceIds : list Z)
| QAggregates.

(** What [reportByService] reads: the rows of the cash flow query, each with
    its [service_id], the names the service query gives for a list of ids and
    the rows of the query of the totals. *)
Record ServiceDatabase := {
  cashflow_rows : list (Z * ServiceRow);
  service_names : list Z -> list string;
  service_aggregates : list Aggregate
}.

(** What is bound to the view. *)
Record ServiceData := {
  data_services : option (list string);
  data_matrix : option (list (list Cell));
  data_aggregates : list Aggregate
}.

(** [lastRow[lastRow.length - 1]] of the last row of the matrix. *)
Definition last_total (matrix : list (list Cell)) : option Cell :=
  last matrix ≫= last.

(** The three steps of [reportByService], with the queries they execute, up
    to the rendering. *)
Definition reportByService_data (db : ServiceDatabase)
  : ServiceData * list ServiceQuery :=
  let rows := cashflow_rows db in
  match rows with
  | [] =>
      ({| data_services := None; data_matrix := None; data_aggregates := [] |},
       [ QCashflowByService ])
  | _ :: _ =>
      let serviceIds := first_occurrences (fst <$> rows) in
      let services := service_names db serviceIds in
      let matrix := matrix services (snd <$> rows) in
      let aggregates := service_aggregates db in
      ({| data_services := Some services;
          data_matrix := Some matrix;
          data_aggregates :=
            aggregates ++ [ {| service_name := None;
                               totalCashIncome := last_total matrix;
                               totalAcruelIncome := None |} ] |},
       [ QCashflowByService; QServices serviceIds; QAggregates ])
  end.

Lemma indexOf_bounds {A} `{EqDecision A} (arr : list A) (x : A) :
  -1 <= indexOf arr x < Z.of_nat (length arr).
Proof.
  induction arr as [| y rest IH]; cbn [indexOf length]; [lia |].
  destruct (decide (y = x)); [lia |]. destruct (decide _); lia.
Qed.

Lemma indexOf_middle {A} `{EqDecision A} (done todo : list A) (x : A) :
  indexOf (done ++ x :: todo) x = Z.of_nat (length done) <-> x ∉ done.
Proof.
  induction done as [| y d IH]; cbn [app indexOf length].
  - rewrite decide_True by done. rewrite elem_of_nil. cbn. tauto.
  - rewrite not_elem_of_cons. destruct (decide (y = x)) as [-> | Hne].
    + split; [lia | tauto].
    + assert (Hin : x ∈ d ++ x :: todo)
        by (apply elem_of_app; right; apply elem_of_cons; by left).
      destruct (indexOf_elem_of _ _ Hin) as (k & Hk & _).
      destruct (decide _) as [Hm | Hm]; [lia |].
      rewrite <- IH. split; [intros; split; [congruence | lia] | intros [_ ?]; lia].
Qed.

(** The filter on [indexOf], the ids [done] having been met and [kept]
    being what is kept of them. *)
Lemma first_occurrences_loop (ids : list Z) :
  forall (todo done kept : list Z),
    ids = done ++ todo ->
    NoDup kept -> (forall x, x ∈ kept <-> x ∈ done) -> sublist kept done ->
    let r := (foldl (fun '(index, kept) id =>
                       (index + 1,
                        if decide (indexOf ids id = index)
                        then kept ++ [id] else kept))
                    (Z.of_nat (length done), kept) todo).2 in
    NoDup r /\ (forall x, x ∈ r <-> x ∈ ids) /\ sublist r ids.
Proof.
  induction todo as [| id todo IH]; intros done kept Hids Hnd Hmem Hsub; cbn.
  - rewrite Hids, app_nil_r. done.
  - replace (Z.of_nat (length done) + 1) with (Z.of_nat (length (done ++ [id])))
      by (rewrite length_app; cbn; lia).
    assert (Hids' : ids = (done ++ [id]) ++ todo) by (by rewrite <- app_assoc).
    destruct (decide (indexOf ids id = Z.of_nat (length done))) as [Hfirst | Hlater].
    + rewrite Hids in Hfirst. apply indexOf_middle in Hfirst.
      apply (IH (done ++ [id])); [done | | |].
      * apply NoDup_app. split; [done |]. split; [| apply NoDup_singleton].
        intros x Hx Hx'. apply list_elem_of_singleton in Hx' as ->. by apply Hfirst, Hmem.
      * intros x. rewrite !elem_of_app, Hmem. done.
      * by apply sublist_app.
    + assert (Hin : id ∈ done).
      { destruct (decide (id ∈ done)) as [| Hout]; [done |].
        exfalso. apply Hlater. rewrite Hids. by apply indexOf_middle. }
      apply (IH (done ++ [id])); [done | done | |].
      * intros x. rewrite elem_of_app, Hmem, list_elem_of_singleton.
        split; [tauto | intros [? | ->]; done].
      * by apply sublist_inserts_r.
Qed.

(** The filter on [indexOf] over a beginning [todo] of the array: the index
    reached is the length of [todo], and what is kept does not depend on the
    rest of the array. One more id is kept when it is not in [todo]. *)
Lemma first_occurrences_prefix (todo : list Z) :
  forall rest : list Z,
    foldl (fun '(index, kept) id =>
             (index + 1,
              if decide (indexOf (todo ++ rest) id = index) then kept ++ [id] else kept))
          (0, []) todo
    = (Z.of_nat (length todo), first_occurrences todo).
Proof.
  induction todo as [| x todo IH] using rev_ind; intros rest; [done |].
  assert (Hstep : forall rest' : list Z,
             foldl (fun '(index, kept) id =>
                      (index + 1,
                       if decide (indexOf ((todo ++ [x]) ++ rest') id = index)
                       then kept ++ [id] else kept))
                   (0, []) (todo ++ [x])
             = (Z.of_nat (length (todo ++ [x])),
                first_occurrences todo ++ (if decide (x ∈ todo) then [] else [x]))).
  { intros rest'. rewrite foldl_snoc, <- app_assoc, IH, length_app. cbn [app length].
    f_equal; [lia |].
    destruct (decide (indexOf (todo ++ x :: rest') x = Z.of_nat (length todo)))
      as [Hfirst | Hlater]; destruct (decide (x ∈ todo)) as [Hin | Hout];
      rewrite ?app_nil_r; try done.
    - by apply indexOf_middle in Hfirst.
    - exfalso. by apply Hlater, indexOf_middle. }
  rewrite Hstep. f_equal.
  pose proof (Hstep []) as Hlast. rewrite app_nil_r in Hlast.
  set (r := first_occurrences todo) in *.
  unfold first_occurrences. by rewrite Hlast.
Qed.

Lemma first_occurrences_snoc (ids : list Z) (x : Z) :
  first_occurrences (ids ++ [x])
  = first_occurrences ids ++ (if decide (x ∈ ids) then [] else [x]).
Proof.
  pose proof (first_occurrences_prefix ids [x]) as Hids.
  set (r := first_occurrences ids) in *.
  unfold first_occurrences. rewrite foldl_snoc, Hids. cbn [snd].
  destruct (decide (indexOf (ids ++ [x]) x = Z.of_nat (length ids))) as [Hfirst | Hlater];
    destruct (decide (x ∈ ids)) as [Hin | Hout]; rewrite ?app_nil_r; try done.
  - by apply indexOf_middle in Hfirst.
  - exfalso. by apply Hlater, indexOf_middle.
Qed.

(** The list of service ids has each id of the rows once, in the order of
    their first occurrence: going through the ids in order, an id is added at
    the end of the list exactly when it has not been met before. *)
Theorem first_occurrences_spec :
  first_occurrences [] = []
  /\ forall ids : list Z,
       (forall x,
           first_occurrences (ids ++ [x])
           = first_occurrences ids ++ (if decide (x ∈ ids) then [] else [x]))
       /\ NoDup (first_occurrences ids)
       /\ (forall x, x ∈ first_occurrences ids <-> x ∈ ids)
       /\ sublist (first_occurrences ids) ids.
Proof.
  split; [done |]. intros ids. split; [apply first_occurrences_snoc |].
  unfold first_occurrences.
  apply (first_occurrences_loop ids ids [] []).
  - done.
  - apply NoDup_nil_2.
  - done.
  - done.
Qed.

(** An id met again later keeps the place of its first occurrence. *)
Example first_occurrences_of_three :
  first_occurrences [1; 2; 1] = [1; 2].
Proof. vm_compute. reflexivity. Qed.

(** The line of a row whose service is not in the list. *)
Lemma matrix_line_unknown services row :
  name row ∉ services ->
  matrix_line services row
  = [ Text (reference row); Number (cashAmount row) ]
      ++ replicate (length services) Null
      ++ [ Number (cumsum row) ].
Proof.
  intros Hout. unfold matrix_line. rewrite (indexOf_not_elem_of _ _ Hout).
  replace (Z.to_nat (Z.of_nat (length services) + 3))
    with (2 + (length services + 1))%nat by lia.
  replace (Z.of_nat (length services) + 2)
    with (Z.of_nat (2 + length services)) by lia.
  change (-1 + 2) with (Z.of_nat 1). change 0 with (Z.of_nat 0).
  rewrite (set_index_inside 0) by (rewrite length_replicate; lia).
  rewrite (set_index_inside 1 (Text _))
    by (rewrite !length_insert, length_replicate; lia).
  rewrite (set_index_inside 1 (Number _))
    by (rewrite !length_insert, length_replicate; lia).
  rewrite set_index_inside by (rewrite !length_insert, length_replicate; lia).
  rewrite !replicate_add. cbn [replicate app insert list_insert Nat.add].
  do 2 f_equal.
  rewrite (insert_app_r_alt (replicate _ Null)) by (rewrite length_replicate; lia).
  by rewrite length_replicate, Nat.sub_diag.
Qed.

Lemma matrix_line_ends services row :
  length (matrix_line services row) = (length services + 3)%nat
  /\ matrix_line services row !! 0%nat = Some (Text (reference row))
  /\ last (matrix_line services row) = Some (Number (cumsum row)).
Proof.
  destruct (decide (name row ∈ services)) as [Hin | Hout].
  - destruct (indexOf_elem_of services (name row) Hin) as (k & Hidx & Hat & _).
    apply lookup_lt_Some in Hat.
    rewrite (matrix_line_at services row k Hidx Hat).
    split; [| split; [done |]].
    + rewrite !length_app, !length_replicate. cbn. lia.
    + rewrite !app_assoc. apply last_snoc.
  - rewrite (matrix_line_unknown services row Hout).
    split; [| split; [done |]].
    + rewrite !length_app, !length_replicate. cbn. lia.
    + rewrite !app_assoc. apply last_snoc.
Qed.

(** Every line of the matrix has a cell for each service and three more; it
    starts with the reference and ends with [cumsum]. When the service of the
    row is not among the names, [indexOf] gives -1 and the cash amount is
    written in column 1, over the name of the patient, all the service columns
    staying [null]. *)
Theorem matrix_line_shape :
  forall (services : list string) (row : ServiceRow),
    length (matrix_line services row) = (length services + 3)%nat
    /\ matrix_line services row !! 0%nat = Some (Text (reference row))
    /\ last (matrix_line services row) = Some (Number (cumsum row))
    /\ (name row ∉ services ->
        matrix_line services row
        = [ Text (reference row); Number (cashAmount row) ]
            ++ replicate (length services) Null
            ++ [ Number (cumsum row) ]).
Proof.
  intros services row.
  destruct (matrix_line_ends services row) as (H1 & H2 & H3).
  split; [done |]. split; [done |]. split; [done |].
  apply matrix_line_unknown.
Qed.

(** With no cash payment in the range, [reportByService] runs the first query
    only, makes no matrix and has no totals. Otherwise it asks for the names
    of the services of the rows, each id once, and then for the totals; the
    matrix has one line for each row, and the total pushed after the totals of
    the services is the [cumsum] of the last row. *)
Theorem reportByService_total :
  forall db : ServiceDatabase,
    (cashflow_rows db = [] ->
     reportByService_data db
     = ({| data_services := None; data_matrix := None; data_aggregates := [] |},
        [ QCashflowByService ]))
    /\ (forall rows id row,
          cashflow_rows db = rows ++ [ (id, row) ] ->
          exists ids matrix,
            reportByService_data db
            = ({| data_services := Some (service_names db ids);
                  data_matrix := Some matrix;
                  data_aggregates :=
                    service_aggregates db
                      ++ [ {| service_name := None;
                              totalCashIncome := Some (Number (cumsum row));
                              totalAcruelIncome := None |} ] |},
               [ QCashflowByService; QServices ids; QAggregates ])
            /\ NoDup ids
            /\ (forall x, x ∈ ids <-> x ∈ (fst <$> cashflow_rows db))
            /\ length matrix = length (cashflow_rows db)
            /\ Forall (fun line => length line = (length (service_names db ids) + 3)%nat)
                      matrix).
Proof.
  intros db. split.
  - intros Hrows. unfold reportByService_data. by rewrite Hrows.
  - intros rows id row Hrows. unfold reportByService_data.
    destruct (cashflow_rows db) as [| r rest] eqn:Hcash.
    { by destruct rows. }
    rewrite Hrows.
    set (ids := first_occurrences (fst <$> rows ++ [(id, row)])).
    exists ids, (matrix (service_names db ids) (snd <$> rows ++ [(id, row)])).
    destruct (first_occurrences_loop (fst <$> rows ++ [(id, row)])
                (fst <$> rows ++ [(id, row)]) [] [])
      as (Hnd & Hmem & _); [done | apply NoDup_nil_2 | done | done |].
    split; [| split; [done |]; split; [done |]; split].
    + do 4 f_equal. unfold last_total, matrix. rewrite fmap_app. cbn.
      rewrite map_app. cbn. rewrite last_snoc. cbn.
      f_equal. apply matrix_line_ends.
    + unfold matrix. by rewrite length_map, !length_fmap.
    + unfold matrix. apply Forall_forall. intros line Hline.
      apply list_elem_of_In, in_map_iff in Hline as (x & <- & _).
      apply matrix_line_ends.
Qed.

(** ** The calendar pipeline *)

(** [getPeriods] runs one query and resolves with rows of the table, in the
    order of the table. For a period that does not end before it starts: when
    [dateFrom <= dateTo] it is selected exactly when it overlaps the range;
    when [dateFrom] is after [dateTo] it is selected exactly when it contains
    one of the two dates. *)
Theorem getPeriods_overlap :
  forall (db : Database) (from to : Day),
    exists periods,
      getPeriods db from to [] = (inr periods, [ QPeriods from to ])
      /\ sublist periods (period_table db)
      /\ forall p,
           format_YMD (start_date p) <= format_YMD (end_date p) ->
           (from <= to ->
            (p ∈ periods
             <-> p ∈ period_table db
                 /\ format_YMD (start_date p) <= to /\ from <= format_YMD (end_date p)))
           /\ (to < from ->
               (p ∈ periods
                <-> p ∈ period_table db
                    /\ (format_YMD (start_date p) <= from <= format_YMD (end_date p)
                        \/ format_YMD (start_date p) <= to <= format_YMD (end_date p)))).
Proof.
  intros db from to. eexists. split; [reflexivity |]. split; [apply sublist_filter |].
  intros p Hp. rewrite list_elem_of_filter. unfold getPeriods_where.
  rewrite !orb_true_iff, !andb_true_iff, !Z.leb_le. split; intros Hft; split; intros H; intuition lia.
Qed.

(** In calendar mode, when the periods have pairwise distinct ids, no
    posting is in two buckets. *)
Theorem calendar_buckets_disjoint :
  forall (periods : list Period) (postings : list Posting),
    NoDup (id <$> periods) ->
    forall (i j : nat) bi bj f,
      groupByPeriod periods postings false !! i = Some bi ->
      groupByPeriod periods postings false !! j = Some bj ->
      f ∈ pf_flows bi -> f ∈ pf_flows bj -> i = j.
Proof.
  intros periods postings Hnd i j bi bj f.
  rewrite groupByPeriod_map. change (map ?g ?l) with (g <$> l).
  rewrite !list_lookup_fmap. intros Hbi Hbj Hfi Hfj.
  destruct (periods !! i) as [pi |] eqn:Hpi; [| done].
  destruct (periods !! j) as [pj |] eqn:Hpj; [| done].
  cbn in Hbi, Hbj. injection Hbi as <-. injection Hbj as <-. cbn in Hfi, Hfj.
  apply list_elem_of_filter in Hfi as [Hi _]. apply list_elem_of_filter in Hfj as [Hj _].
  unfold in_period in Hi, Hj.
  apply (NoDup_lookup (id <$> periods) i j (Some (period_id f))); [done | |].
  - by rewrite list_lookup_fmap, Hpi, <- Hi.
  - by rewrite list_lookup_fmap, Hpj, <- Hj.
Qed.

(** A posting of February 2024 among the periods of the table of 2024: it is
    in the bucket of February. *)
Lemma calendar_buckets_disjoint_2024 :
  NoDup (id <$> period_table db_2024)
  /\ groupByPeriod (period_table db_2024)
       [ posting "TRANS3" (ymd 2024 2 10) 2 300 0 2 "CASH_PAYMENT" ] false !! 1%nat
     = Some {| pf_period := month 2 2024 2 29;
               pf_flows := [ posting "TRANS3" (ymd 2024 2 10) 2 300 0 2 "CASH_PAYMENT" ] |}
  /\ 1%nat = 1%nat.
Proof.
  assert (Hnd : NoDup (id <$> period_table db_2024)).
  { vm_compute. repeat constructor; rewrite ?elem_of_cons, ?elem_of_nil; intuition discriminate. }
  split; [exact Hnd |]. split; [vm_compute; reflexivity |].
  apply (calendar_buckets_disjoint (period_table db_2024)
           [ posting "TRANS3" (ymd 2024 2 10) 2 300 0 2 "CASH_PAYMENT" ] Hnd 1 1
           {| pf_period := month 2 2024 2 29;
              pf_flows := [ posting "TRANS3" (ymd 2024 2 10) 2 300 0 2 "CASH_PAYMENT" ] |}
           {| pf_period := month 2 2024 2 29;
              pf_flows := [ posting "TRANS3" (ymd 2024 2 10) 2 300 0 2 "CASH_PAYMENT" ] |}
           (posting "TRANS3" (ymd 2024 2 10) 2 300 0 2 "CASH_PAYMENT")).
  - vm_compute. reflexivity.
  - vm_compute. reflexivity.
  - apply list_elem_of_here.
  - apply list_elem_of_here.
Defined.

(** The calendar report rendered as a document: the request of the first
    quarter of 2024. *)
Definition first_quarter_2024 : Params :=
  {| account_id := Some "3627"; dateFrom := DateStr (ymd 2024 1 1);
     dateTo := DateStr (ymd 2024 3 31); weekly := false |}.

(** What [processingCashflowReport] resolves with for that request. *)
Definition report_first_quarter_2024 : Report :=
  {| openningBalance := BalanceObj 100 None;
     flows := map (fun p => {| period := p; incomes := []; expenses := [] |})
                  (period_table db_2024) |}.

(** When [processingCashflowReport] resolves, the session that [reporting]
    builds from its result has a number for opening balance, the one the
    database gives for the start of the first selected period, or zero when
    it gives none; its list of period starts is that of the selected periods,
    in order; and every selected period has an opening balance and a balance
    that are numbers, with balance = opening balance + incomes - expenses. *)
Theorem calendar_document_balances :
  forall (db : Database) (params : Params) (rows : Report),
    (processingCashflowReport db params).1 = Resolved rows ->
    exists account p0 rest,
      account_id params = Some account
      /\ filter (fun p => getPeriods_where (format_YMD (dateFrom params))
                                           (format_YMD (dateTo params)) p = true)
                (period_table db) = p0 :: rest
      /\ openningBalance rows
         = BalanceObj (default 0 (opening_balance db account (start_date p0))) None
      /\ session_openningBalance (reporting rows)
         = Some (default 0 (opening_balance db account (start_date p0)))
      /\ periodStartArray (reporting rows)
         = (fun p => format_YMD (start_date p)) <$> (p0 :: rest)
      /\ forall p,
           p ∈ p0 :: rest ->
           exists o b i e : Z,
             periodicOpenningBalance (reporting rows) !! format_YMD (start_date p)
             = Some (Some o)
             /\ periodicBalance (reporting rows) !! format_YMD (start_date p) = Some (Some b)
             /\ sum_incomes (reporting rows) !! format_YMD (start_date p) = Some i
             /\ sum_expense (reporting rows) !! format_YMD (start_date p) = Some e
             /\ b = o + i - e.
Proof.
  intros db params rows Hres. unfold processingCashflowReport in Hres.
  destruct (missing (account_id params)) eqn:Hm; [done |].
  destruct (not_missing _ Hm) as [account Heq]. rewrite Heq in Hres.
  unfold settle, then_, getPeriods, db_exec in Hres. cbn [default] in Hres.
  destruct (filter _ (period_table db)) as [| p0 rest] eqn:Hper; [done |].
  cbv beta iota zeta delta [getOpeningBalanceForDate queryIncomeExpense db_exec resolve fst] in Hres.
  injection Hres as <-.
  exists account, p0, rest. split; [done |]. split; [done |].
  set (ob := default 0 (opening_balance db account (start_date p0))).
  match goal with
  | |- openningBalance ?r = _ /\ _ => set (rows := r)
  end.
  assert (Hbal : openningBalance rows = BalanceObj ob None).
  { unfold rows, ob. cbn. destruct (opening_balance db account (start_date p0)) as [b |]; cbn.
    - destruct (decide (b = 0)) as [-> |]; done.
    - done. }
  assert (Hob : balance_of (openningBalance rows) = Some ob) by (by rewrite Hbal).
  assert (Hkeys : map period_key (flows rows)
                  = (fun p => format_YMD (start_date p)) <$> (p0 :: rest)).
  { unfold rows. cbn [flows].
    rewrite groupByPeriod_map, groupingIncomeExpenseByPeriod_map, !map_map. done. }
  destruct (reporting_summarized rows ob Hob) as [(Harr & Hopen & _) Hall].
  split; [done |]. split; [done |]. split; [by rewrite Harr |].
  intros p Hp.
  destruct (Hall (format_YMD (start_date p))) as (o & b & HO & HB & HI & HE & Hb & _).
  { rewrite Hkeys. apply list_elem_of_fmap. eauto. }
  eauto 10.
Qed.

Lemma calendar_document_first_quarter_2024 :
  (processingCashflowReport db_2024 first_quarter_2024).1 = Resolved report_first_quarter_2024
  /\ session_openningBalance (reporting report_first_quarter_2024) = Some 100
  /\ periodStartArray (reporting report_first_quarter_2024)
     = [ ymd 2024 1 1; ymd 2024 2 1; ymd 2024 3 1 ].
Proof.
  assert (Hres : (processingCashflowReport db_2024 first_quarter_2024).1
                 = Resolved report_first_quarter_2024) by (vm_compute; reflexivity).
  split; [exact Hres |].
  destruct (calendar_document_balances db_2024 first_quarter_2024
              report_first_quarter_2024 Hres)
    as (account & p0 & rest & Hacc & Hper & _ & Hopen & Harr & _).
  injection Hacc as <-. vm_compute in Hper. injection Hper as <- <-.
  rewrite Hopen, Harr. vm_compute. split; reflexivity.
Defined.

(** [previousPeriod]: for a period that is not in the list of period starts
    it is [undefined]; for the first entry of the list it is that entry
    itself; for any other period it is the entry before the first place of
    the period in the list. *)
Theorem previousPeriod_spec :
  forall (session : Session) (p : Day),
    ((p ∉ periodStartArray session) -> previousPeriod session p = None)
    /\ (forall rest, periodStartArray session = p :: rest ->
                     previousPeriod session p = Some p)
    /\ (forall before q after,
          periodStartArray session = before ++ q :: p :: after ->
          (p ∉ before) -> p <> q ->
          previousPeriod session p = Some q).
Proof.
  intros session p. unfold previousPeriod. split; [| split].
  - intros Hp. rewrite (indexOf_not_elem_of _ _ Hp).
    destruct (decide _) as [_ | H]; [| lia]. unfold at_index. by rewrite decide_True by lia.
  - intros rest ->.
    assert (Hidx : indexOf (p :: rest) p = 0) by (cbn [indexOf]; by rewrite decide_True).
    rewrite Hidx. destruct (decide _) as [H | _]; [lia |]. done.
  - intros before q after -> Hbefore Hne.
    assert (Hidx : indexOf (before ++ q :: p :: after) p = Z.of_nat (length before) + 1).
    { replace (before ++ q :: p :: after) with ((before ++ [q]) ++ p :: after)
        by (by rewrite <- app_assoc).
      assert (H : p ∉ before ++ [q]).
      { rewrite elem_of_app, list_elem_of_singleton. tauto. }
      rewrite (proj2 (indexOf_middle (before ++ [q]) after p) H), length_app. cbn. lia. }
    rewrite Hidx. destruct (decide _) as [_ | H]; [| lia].
    unfold at_index. destruct (decide _) as [H | _]; [lia |].
    replace (Z.to_nat (Z.of_nat (length before) + 1 - 1)) with (length before) by lia.
    by rewrite list_lookup_middle.
Qed.

(** ** The request handlers *)

(** What a handler does with its request: it answers with a status and a
    body, it passes an error to [next], or an exception leaves it. *)
Inductive Handled :=
| Json (status : Z) (body : Report)
| Next (e : Error)
| Raised (e : Error).

(** [report(req, res, next)], [params] being [req.query]. *)
Definition report (db : Database) (params : Params) : Handled * list Query :=
  match processingCashflowReport db params with
  | (Thrown e, queries) => (Raised e, queries)
  | (Rejected e, queries) => (Next e, queries)
  | (Resolved result, queries) => (Json 200 result, queries)
  end.

(** [weeklyReport(req, res, next)]. *)
Definition weeklyReport (db : Database) (params : Params) : Handled * list Query :=
  match processingWeekCashflow db params with
  | (Thrown e, queries) => (Raised e, queries)
  | (Rejected e, queries) => (Next e, queries)
  | (Resolved result, queries) => (Json 200 result, queries)
  end.

(** The two handlers of the JSON reports, the queries succeeding. Without a
    cashbox the error is not passed to [next]: the exception leaves the
    handler, and no query is made. With a cashbox, [weeklyReport] always
    answers 200 after two queries, and [report] answers 200 after three
    queries when a period is selected and passes the error of a bad date
    interval to [next], after one query, when none is. *)
Theorem handlers_outcomes :
  forall (db : Database) (params : Params),
    (missing (account_id params) = true ->
     report db params = (Raised cashbox_missing, [])
     /\ weeklyReport db params = (Raised cashbox_missing, []))
    /\ (missing (account_id params) = false ->
        (exists result q1 q2, weeklyReport db params = (Json 200 result, [q1; q2]))
        /\ (filter (fun p => getPeriods_where (format_YMD (dateFrom params))
                                              (format_YMD (dateTo params)) p = true)
                   (period_table db) = [] ->
            report db params
            = (Next bad_date_interval,
               [ QPeriods (format_YMD (dateFrom params)) (format_YMD (dateTo params)) ]))
        /\ (filter (fun p => getPeriods_where (format_YMD (dateFrom params))
                                              (format_YMD (dateTo params)) p = true)
                   (period_table db) <> [] ->
            exists result q1 q2 q3, report db params = (Json 200 result, [q1; q2; q3]))).
Proof.
  intros db params. split.
  - intros Hm. unfold report, weeklyReport, processingCashflowReport, processingWeekCashflow.
    by rewrite Hm.
  - intros Hm. split; [| split].
    + destruct (processingWeekCashflow_resolved db params Hm)
        as (account & result & _ & Heq & _).
      unfold weeklyReport. rewrite Heq. eauto.
    + intros Hnil.
      destruct (processingCashflowReport_periods db params Hm) as (account & _ & H).
      cbn zeta in H. rewrite Hnil in H. unfold report. by rewrite H.
    + intros Hsome.
      destruct (processingCashflowReport_periods db params Hm) as (account & _ & H).
      cbn zeta in H. destruct (filter _ (period_table db)) as [| p0 rest]; [done |].
      destruct H as (result & Heq & _). unfold report. rewrite Heq. eauto.
Qed.
